(** * Radiobot: the controller script [main.py]

    [main.py] wires GPIO buttons, an LCD display manager, a player and a
    radio manager together.  Everything it does is a call on one of these
    collaborators, a read of the wall clock, or an access to the global
    [ip_timer].  The script is embedded as programs of a small monad whose
    operations are those calls; an interpreter threads the process state
    (the global, the clock, the log of calls made so far) and asks an
    environment how each collaborator call ends: with a value, or with a
    Python exception.

    - [sys.exit(n)] raises [SystemExit n], as in Python.
    - [time.time()] reads a clock that stands still while a listener
      runs; its float is taken as an exact rational number of seconds.
      The test [time.time() - ip_timer < 0.4] on rationals is the test
      on doubles as soon as [ip_timer] is at least [0.4]: the
      subtraction of doubles is then exact wherever the test could
      differ, and no double lies between [2/5] and the double [0.4].
      The theorems about the window assume such a stamp.
    - [while True] is unrolled a given number of times.
    - The listeners and the signal handler are programs of their own; run
      as threads they take steps in the order of a schedule, one
      operation at a time.  What the interpreter of Python does with an
      exception that leaves a thread is outside the model.
    - Python runs a signal handler on the main thread.
      [run_main_thread] runs the script with [sigterm_callback] coming
      in after any call made once [signal.signal] has returned; what the
      handler raises is raised where the main thread was.  A [SIGTERM]
      that arrives before the handler is registered, or while the
      handler runs, is outside the model.  [run] is the main thread
      when no [SIGTERM] is handled. *)

From Stdlib Require Import ZArith QArith String List Bool Lia.
From ExtLib Require Import Structures.Monad Structures.MonadExc.
Import ListNotations.
Import MonadNotation.

Local Open Scope string_scope.
Local Open Scope list_scope.
Local Open Scope monad_scope.

Set Implicit Arguments.

(** ** Python exceptions *)

(** [SystemExit] and [KeyboardInterrupt] derive from [BaseException] only;
    every other exception the script can meet derives from [Exception].
    [Exception msg] carries [str(e)]. *)
Inductive exn : Type :=
| SystemExit (code : Z)
| KeyboardInterrupt
| Exception (msg : string).

Definition is_Exception (e : exn) : bool :=
  match e with
  | Exception _ => true
  | _ => false
  end.

Inductive result (A : Type) : Type :=
| Ok (a : A)
| Raise (e : exn).
Arguments Ok {A} a.
Arguments Raise {A} e.

(** ** Collaborators *)

Module GPIO.
Inductive direction := IN | OUT.
Inductive pull := PUD_DOWN | PUD_UP.
Inductive edge := RISING | FALLING.
Inductive level := LOW | HIGH.
End GPIO.

(** The functions of [main.py] that are registered as GPIO listeners. *)
Inductive callback : Type :=
| volume_up_cb
| volume_down_cb
| next_radio_cb
| previous_radio_cb
| halt_cb.

(** The attributes of [configLoader] that [init_radiobot] reads once
    [parse_config_file()] has returned. *)
Record config : Type := {
  serial_device : string;
  serial_baud_rate : Z;
  name : string;
  halt_message : string;
  volume_timer : Q;
  scroll_time_interval : Q;
  scroll_time_pause : Q;
  volume : Z;
  radios : list (string * string);
  volume_step : Z;
  radio_info_check_interval : Q;
  full_radio_name_pause : Q;
  radio_indice : Z
}.

(** The methods of [displayManager] that the script hands to
    [displayManager.on_thread]. *)
Inductive display_command : Type :=
| display_ip_address (ip : string)
| terminate.

(** One constructor per call the script makes outside itself. *)
Inductive call : Type :=
(* builtins and standard modules *)
| print (s : string)
| signal_signal_SIGTERM         (* signal.signal(signal.SIGTERM, sigterm_callback) *)
| time_sleep (seconds : Q)
| subprocess_call (args : list string)
(* RPi.GPIO *)
| GPIO_setmode_BCM
| GPIO_setup (pin : Z) (d : GPIO.direction) (pull_up_down : option GPIO.pull)
| GPIO_output (pin : Z) (l : GPIO.level)
| GPIO_add_event_detect (pin : Z) (e : GPIO.edge) (cb : callback) (bouncetime : Z)
| GPIO_cleanup
(* netifaces: ni.ifaddresses(iface)[AF_INET][0]['addr'] *)
| ifaddresses_addr (iface : string)
(* configLoader *)
| ConfigLoader_init (config_file : string)
| parse_config_file
| save_settings (vol indice : Z)
(* displayManager *)
| serial_Serial (device : string) (baud_rate : Z) (timeout : Z)
| DisplayManager_init (nm halt_msg : string) (vol_timer scroll_interval scroll_pause : Q)
| displayManager_start
| displayManager_on_thread (cmd : display_command)
(* playerManager *)
| PlayerManager_init (vol : Z)
| update_player
(* radioManager *)
| RadioManager_init (rs : list (string * string)) (vol step : Z)
                    (check_interval name_pause : Q) (indice : Z)
| play_radio
| check_radio_info
| volume_up
| volume_down
| next
| previous
| get_current_volume
| get_current_radio_indice.

(** What a call hands back when it returns. *)
Definition answer (c : call) : Type :=
  match c with
  | parse_config_file => config
  | ifaddresses_addr _ => string
  | get_current_volume => Z
  | get_current_radio_indice => Z
  | _ => unit
  end.

(** ** Programs *)

(** A program is a tree of operations.  The continuation of a [Call]
    receives the outcome of the call, so that [try]/[except] can be
    written inside the monad. *)
Inductive prog (A : Type) : Type :=
| Ret (a : A)
| Throw (e : exn)
| Call (c : call) (k : result (answer c) -> prog A)
| TimeTime (k : Q -> prog A)
| GetIpTimer (k : Q -> prog A)
| SetIpTimer (t : Q) (k : prog A).
Arguments Ret {A} a.
Arguments Throw {A} e.
Arguments Call {A} c k.
Arguments TimeTime {A} k.
Arguments GetIpTimer {A} k.
Arguments SetIpTimer {A} t k.

Fixpoint prog_bind {A B : Type} (p : prog A) (f : A -> prog B) : prog B :=
  match p with
  | Ret a => f a
  | Throw e => Throw e
  | Call c k => Call c (fun r => prog_bind (k r) f)
  | TimeTime k => TimeTime (fun t => prog_bind (k t) f)
  | GetIpTimer k => GetIpTimer (fun t => prog_bind (k t) f)
  | SetIpTimer t k => SetIpTimer t (prog_bind k f)
  end.

Fixpoint prog_catch {A : Type} (p : prog A) (h : exn -> prog A) : prog A :=
  match p with
  | Ret a => Ret a
  | Throw e => h e
  | Call c k => Call c (fun r => prog_catch (k r) h)
  | TimeTime k => TimeTime (fun t => prog_catch (k t) h)
  | GetIpTimer k => GetIpTimer (fun t => prog_catch (k t) h)
  | SetIpTimer t k => SetIpTimer t (prog_catch k h)
  end.

#[global] Instance Monad_prog : Monad prog :=
  {| ret := @Ret; bind := @prog_bind |}.

#[global] Instance MonadExc_prog : MonadExc exn prog :=
  {| raise := @Throw; catch := @prog_catch |}.

(** A collaborator call whose exception, if any, propagates. *)
Definition invoke (c : call) : prog (answer c) :=
  Call c (fun r => match r with
                   | Ok a => Ret a
                   | Raise e => Throw e
                   end).

Definition time_time : prog Q := TimeTime (fun t => Ret t).
Definition get_ip_timer : prog Q := GetIpTimer (fun t => Ret t).
Definition set_ip_timer (t : Q) : prog unit := SetIpTimer t (Ret tt).
Definition sys_exit {A : Type} (code : Z) : prog A := raise (SystemExit code).

(** [try: body  except: handler] : a bare [except] catches everything. *)
Definition try_except {A : Type} (body handler : prog A) : prog A :=
  catch body (fun _ => handler).

(** [try: body  except Exception as e: handler e]. *)
Definition try_except_Exception {A : Type} (body : prog A)
           (handler : string -> prog A) : prog A :=
  catch body (fun e => match e with
                       | Exception msg => handler msg
                       | _ => raise e
                       end).

(** [try: body  except KeyboardInterrupt: handler]. *)
Definition try_except_KeyboardInterrupt {A : Type} (body handler : prog A) : prog A :=
  catch body (fun e => match e with
                       | KeyboardInterrupt => handler
                       | _ => raise e
                       end).

(** ** The process state and the interpreter *)

Inductive event : Type :=
| Returned (c : call) (a : answer c)
| Raised (c : call) (e : exn).

(** [ip_timer] is the global of [main.py]; [clock] is what [time.time()]
    reads, in seconds (the float of the source is taken as an exact
    rational); [trace] logs the collaborator calls in the order they were
    made. *)
Record world : Type := {
  ip_timer : Q;
  clock : Q;
  trace : list event
}.

(** The environment decides, from the calls made so far, how the next
    call ends. *)
Definition environment : Type := list event -> forall c : call, result (answer c).

Definition log (ev : event) (w : world) : world :=
  {| ip_timer := ip_timer w; clock := clock w; trace := trace w ++ [ev] |}.

Definition store_ip_timer (t : Q) (w : world) : world :=
  {| ip_timer := t; clock := clock w; trace := trace w |}.

Definition at_time (t : Q) (w : world) : world :=
  {| ip_timer := ip_timer w; clock := t; trace := trace w |}.

Definition exec (env : environment) (c : call) (w : world) : world * result (answer c) :=
  match env (trace w) c with
  | Ok a => (log (Returned c a) w, Ok a)
  | Raise e => (log (Raised c e) w, Raise e)
  end.

Fixpoint run (env : environment) {A : Type} (p : prog A) (w : world) : world * result A :=
  match p with
  | Ret a => (w, Ok a)
  | Throw e => (w, Raise e)
  | Call c k => let (w', r) := exec env c w in run env (k r) w'
  | TimeTime k => run env (k (clock w)) w
  | GetIpTimer k => run env (k (ip_timer w)) w
  | SetIpTimer t k => run env k (store_ip_timer t w)
  end.

(** ** [main.py] *)

(** [ip_timer = 0] at module level; the four manager globals are [None]
    until [init_radiobot] assigns them and are reached through the calls. *)
Definition initial_world (now : Q) : world :=
  {| ip_timer := 0; clock := now; trace := [] |}.

Definition configure_GPIO : prog unit :=
  invoke GPIO_setmode_BCM ;;
  invoke (GPIO_setup 27 GPIO.IN (Some GPIO.PUD_DOWN)) ;;
  invoke (GPIO_setup 23 GPIO.IN (Some GPIO.PUD_DOWN)) ;;
  invoke (GPIO_setup 24 GPIO.IN (Some GPIO.PUD_DOWN)) ;;
  invoke (GPIO_setup 25 GPIO.IN (Some GPIO.PUD_DOWN)) ;;
  invoke (GPIO_add_event_detect 27 GPIO.RISING volume_up_cb 200) ;;
  invoke (GPIO_add_event_detect 23 GPIO.RISING volume_down_cb 200) ;;
  invoke (GPIO_add_event_detect 24 GPIO.RISING next_radio_cb 200) ;;
  invoke (GPIO_add_event_detect 25 GPIO.RISING previous_radio_cb 200).

Definition set_as_ready : prog unit :=
  invoke (GPIO_setup 4 GPIO.OUT None) ;;
  invoke (GPIO_output 4 GPIO.LOW) ;;
  invoke (time_sleep (1 # 2)) ;;
  invoke (GPIO_setup 4 GPIO.IN (Some GPIO.PUD_UP)) ;;
  invoke (GPIO_add_event_detect 4 GPIO.FALLING halt_cb 200).

Definition init_radiobot (config_file : string) : prog unit :=
  configure_GPIO ;;
  cfg <- try_except_Exception
           (invoke (ConfigLoader_init config_file) ;;
            cfg <- invoke parse_config_file ;;
            invoke (print "Configuration file loaded successfully") ;;
            ret cfg)
           (fun msg =>
              invoke (print ("Invalid configuration : " ++ msg)) ;;
              invoke (print "Exciting.") ;;
              sys_exit 2) ;;
  invoke (serial_Serial (serial_device cfg) (serial_baud_rate cfg) 1) ;;
  invoke (DisplayManager_init (name cfg) (halt_message cfg) (volume_timer cfg)
                          (scroll_time_interval cfg) (scroll_time_pause cfg)) ;;
  invoke displayManager_start ;;
  invoke (PlayerManager_init (volume cfg)) ;;
  invoke (RadioManager_init (radios cfg) (volume cfg) (volume_step cfg)
                        (radio_info_check_interval cfg)
                        (full_radio_name_pause cfg) (radio_indice cfg)) ;;
  set_as_ready ;;
  invoke play_radio.

(** The double-press window of [volume_up_callback], [0.4] seconds. *)
Definition window : Q := 2 # 5.

Definition Qltb (x y : Q) : bool := negb (Qle_bool y x).

Definition show_ip_address : prog unit :=
  ip <- invoke (ifaddresses_addr "wlan0") ;;
  invoke (print ("IP address : " ++ ip)) ;;
  invoke (displayManager_on_thread (display_ip_address ip)).

Definition volume_up_callback (channel : Z) : prog unit :=
  now <- time_time ;;
  last_down <- get_ip_timer ;;
  if Qltb (now - last_down) window
  then try_except show_ip_address (ret tt)
  else invoke volume_up.

Definition volume_down_callback (channel : Z) : prog unit :=
  now <- time_time ;;
  set_ip_timer now ;;
  invoke volume_down.

Definition next_radio_callback (channel : Z) : prog unit :=
  invoke next.

Definition previous_radio_callback (channel : Z) : prog unit :=
  invoke previous.

Definition clean_exit_and_shutdown : prog unit :=
  invoke (print EmptyString) ;;
  invoke (print "Cleaning GPIO") ;;
  invoke GPIO_cleanup ;;
  invoke (print "Cleaning LCD") ;;
  invoke (displayManager_on_thread terminate) ;;
  invoke (print "Saving current settings to cache") ;;
  vol <- invoke get_current_volume ;;
  indice <- invoke get_current_radio_indice ;;
  invoke (save_settings vol indice) ;;
  invoke (print "Exiting.") ;;
  invoke (subprocess_call ["sudo"; "shutdown"; "-h"; "now"]) ;;
  sys_exit 0.

Definition clean_exit : prog unit :=
  invoke (print EmptyString) ;;
  invoke (print "Cleaning GPIO") ;;
  invoke GPIO_cleanup ;;
  invoke (print "Cleaning LCD") ;;
  invoke (displayManager_on_thread terminate) ;;
  invoke (print "Saving current settings to cache") ;;
  vol <- invoke get_current_volume ;;
  indice <- invoke get_current_radio_indice ;;
  invoke (save_settings vol indice) ;;
  invoke (print "Exiting.") ;;
  sys_exit 0.

Definition halt_callback (channel : Z) : prog unit :=
  invoke (print "Shutdown requested !") ;;
  clean_exit_and_shutdown.

Definition sigterm_callback (signum : Z) (frame : unit) : prog unit :=
  clean_exit.

(** The listener that [GPIO.add_event_detect] was given for a callback. *)
Definition listener (cb : callback) : Z -> prog unit :=
  match cb with
  | volume_up_cb => volume_up_callback
  | volume_down_cb => volume_down_callback
  | next_radio_cb => next_radio_callback
  | previous_radio_cb => previous_radio_callback
  | halt_cb => halt_callback
  end.

(** *** The foreground loop *)

(** [while True] is unrolled [fuel] times.  A program that is still in
    the loop when the fuel is spent ends in [out_of_fuel]; [fell_through]
    stands for control leaving the [try] statement of [main] at its end. *)
Inductive loop_status : Type := out_of_fuel | fell_through.

Definition tick : Q := 1 # 20.

Definition loop_body : prog unit :=
  invoke check_radio_info ;;
  invoke update_player ;;
  invoke (time_sleep tick).

Fixpoint while_True (fuel : nat) (body : prog unit) : prog loop_status :=
  match fuel with
  | O => ret out_of_fuel
  | S fuel' => body ;; while_True fuel' body
  end.

Definition foreground_loop (fuel : nat) : prog loop_status :=
  try_except_KeyboardInterrupt
    (while_True fuel loop_body)
    (clean_exit ;; ret fell_through).

Definition main (config_file : string) (fuel : nat) : prog loop_status :=
  invoke (print "Radiobot (v1.0)") ;;
  invoke (print "Written by Chuck182") ;;
  invoke (print EmptyString) ;;
  invoke signal_signal_SIGTERM ;;
  init_radiobot config_file ;;
  foreground_loop fuel.

(** [if __name__ == "__main__"], with [argv] the list [sys.argv]. *)
Definition script (argv : list string) (fuel : nat) : prog loop_status :=
  match argv with
  | _ :: config_file :: _ => main config_file fuel
  | _ =>
      invoke (print "Missing configuration file path") ;;
      invoke (print "Exiting.") ;;
      sys_exit 2
  end.

(** ** Reading traces *)

Definition default_config : config :=
  {| serial_device := "/dev/ttyAMA0"; serial_baud_rate := 9600;
     name := "Radiobot"; halt_message := "Bye";
     volume_timer := 2; scroll_time_interval := 1 # 2; scroll_time_pause := 2;
     volume := 50;
     radios := [("FIP", "http://direct.fipradio.fr/live/fip-midfi.mp3")];
     volume_step := 5; radio_info_check_interval := 5;
     full_radio_name_pause := 2; radio_indice := 0 |}.

Definition default_answer (c : call) : answer c :=
  match c with
  | parse_config_file => default_config
  | ifaddresses_addr _ => "192.168.1.20"
  | get_current_volume => 50%Z
  | get_current_radio_indice => 0%Z
  | _ => tt
  end.

(** The environment in which every call returns. *)
Definition calm : environment := fun _ c => Ok (default_answer c).

(** [extend w evs] is [w] after the calls [evs] have been logged. *)
Definition extend (w : world) (evs : list event) : world :=
  {| ip_timer := ip_timer w; clock := clock w; trace := trace w ++ evs |}.

(** The calls logged between [w] and a later world [w']. *)
Definition new_events (w w' : world) : list event :=
  skipn (length (trace w)) (trace w').

Definition call_of (ev : event) : call :=
  match ev with
  | Returned c _ => c
  | Raised c _ => c
  end.

Definition returned (ev : event) : bool :=
  match ev with
  | Returned _ _ => true
  | Raised _ _ => false
  end.

(** Every call of [evs] returned. *)
Definition completed (evs : list event) : bool := forallb returned evs.

(** Some call of [evs] satisfying [P] was made, whatever its outcome. *)
Definition attempted (P : call -> bool) (evs : list event) : bool :=
  existsb (fun ev => P (call_of ev)) evs.

(** How many calls of [evs] satisfying [P] returned. *)
Definition count_done (P : call -> bool) (evs : list event) : nat :=
  length (filter (fun ev => returned ev && P (call_of ev)) evs).

Definition done (P : call -> bool) (evs : list event) : bool :=
  existsb (fun ev => returned ev && P (call_of ev)) evs.

(** [p] makes no call satisfying [P], whatever the environment. *)
Definition never (P : call -> bool) {A : Type} (p : prog A) : Prop :=
  forall (env : environment) (w : world),
    attempted P (new_events w (fst (run env p w))) = false.

(** A run of the calls [full] that stopped at position [n], where the
    call raised [e]. *)
Definition aborted_at (full : list event) (n : nat) (e : exn) : list event :=
  firstn n full ++
  match nth_error full n with
  | Some ev => [Raised (call_of ev) e]
  | None => []
  end.

Definition is_save_settings (c : call) : bool :=
  match c with save_settings _ _ => true | _ => false end.
Definition is_power_off (c : call) : bool :=
  match c with subprocess_call _ => true | _ => false end.
Definition is_address_lookup (c : call) : bool :=
  match c with ifaddresses_addr _ => true | _ => false end.
Definition is_display_ip_address (c : call) : bool :=
  match c with
  | displayManager_on_thread (display_ip_address _) => true
  | _ => false
  end.
Definition is_volume_up (c : call) : bool :=
  match c with volume_up => true | _ => false end.
Definition is_print (c : call) : bool :=
  match c with print _ => true | _ => false end.
Definition is_play_radio (c : call) : bool :=
  match c with play_radio => true | _ => false end.
Definition is_config_load (c : call) : bool :=
  match c with ConfigLoader_init _ | parse_config_file => true | _ => false end.

(** The calls of the shutdown sequence when each of them returns; [vol]
    and [indice] are what the two accessors of the radio manager gave. *)
Definition shutdown_events (vol indice : Z) : list event :=
  [ Returned (print EmptyString) tt;
    Returned (print "Cleaning GPIO") tt;
    Returned GPIO_cleanup tt;
    Returned (print "Cleaning LCD") tt;
    Returned (displayManager_on_thread terminate) tt;
    Returned (print "Saving current settings to cache") tt;
    Returned get_current_volume vol;
    Returned get_current_radio_indice indice;
    Returned (save_settings vol indice) tt;
    Returned (print "Exiting.") tt ].

Definition power_off_events (vol indice : Z) : list event :=
  shutdown_events vol indice
  ++ [ Returned (subprocess_call ["sudo"; "shutdown"; "-h"; "now"]) tt ].

Definition is_loop_call (c : call) : bool :=
  match c with
  | check_radio_info | update_player | time_sleep _ => true
  | _ => false
  end.

Definition is_KeyboardInterrupt (e : exn) : bool :=
  match e with KeyboardInterrupt => true | _ => false end.

(** The exceptions raised by calls of [evs] satisfying [P]. *)
Definition raised_by (P : call -> bool) (evs : list event) : list exn :=
  flat_map (fun ev => match ev with
                      | Raised c e => if P c then [e] else []
                      | Returned _ _ => []
                      end) evs.

(** *** The three ways into the shutdown sequence *)

Inductive trigger : Type :=
| halt_button
| termination_signal
| keyboard_interruption.

(** The halt button is wired to [halt_callback] on pin 4, [SIGTERM] (15)
    to [sigterm_callback], and the [except KeyboardInterrupt] clause of
    [main] calls [clean_exit]. *)
Definition shutdown_on (t : trigger) : prog unit :=
  match t with
  | halt_button => halt_callback 4
  | termination_signal => sigterm_callback 15 tt
  | keyboard_interruption => clean_exit
  end.

(** The two copies of the sequence in [main.py], told apart by whether
    the machine is halted at the end. *)
Definition shutdown_sequence (power_off : bool) : prog unit :=
  if power_off then clean_exit_and_shutdown else clean_exit.

Definition powers_off (t : trigger) : bool :=
  match t with halt_button => true | _ => false end.

(** The calls a trigger leads to when each of them returns. *)
Definition trigger_events (t : trigger) (vol indice : Z) : list event :=
  match t with
  | halt_button =>
      Returned (print "Shutdown requested !") tt :: power_off_events vol indice
  | _ => shutdown_events vol indice
  end.

(** *** Listeners armed on the GPIO *)

Fixpoint armed_after (evs : list event) (acc : list (Z * callback)) : list (Z * callback) :=
  match evs with
  | [] => acc
  | Returned (GPIO_add_event_detect pin _ cb _) _ :: evs' =>
      armed_after evs' (acc ++ [(pin, cb)])
  | Returned GPIO_cleanup _ :: evs' => armed_after evs' []
  | _ :: evs' => armed_after evs' acc
  end.

(** The (pin, callback) pairs listening once the calls [evs] were made. *)
Definition armed (evs : list event) : list (Z * callback) := armed_after evs [].

Definition button_listeners : list (Z * callback) :=
  [ (27%Z, volume_up_cb); (23%Z, volume_down_cb);
    (24%Z, next_radio_cb); (25%Z, previous_radio_cb) ].

(** *** Button presses *)

Definition pin_of (cb : callback) : Z :=
  match cb with
  | volume_up_cb => 27
  | volume_down_cb => 23
  | next_radio_cb => 24
  | previous_radio_cb => 25
  | halt_cb => 4
  end.

(** The listener of [cb] runs when the clock reads [t]. *)
Definition press (env : environment) (t : Q) (cb : callback) (w : world) : world * result unit :=
  run env (listener cb (pin_of cb)) (at_time t w).

Fixpoint presses (env : environment) (l : list (Q * callback)) (w : world) : world :=
  match l with
  | [] => w
  | (t, cb) :: l' => presses env l' (fst (press env t cb w))
  end.

Definition is_volume_down_cb (cb : callback) : bool :=
  match cb with volume_down_cb => true | _ => false end.

(** *** Threads *)

(** One operation of [p]. *)
Definition step (env : environment) {A : Type} (p : prog A) (w : world) : prog A * world :=
  match p with
  | Ret a => (Ret a, w)
  | Throw e => (Throw e, w)
  | Call c k => let (w', r) := exec env c w in (k r, w')
  | TimeTime k => (k (clock w), w)
  | GetIpTimer k => (k (ip_timer w), w)
  | SetIpTimer t k => (k, store_ip_timer t w)
  end.

Definition finished {A : Type} (p : prog A) : bool :=
  match p with
  | Ret _ | Throw _ => true
  | _ => false
  end.

(** Thread [i] of the pool makes one step. *)
Fixpoint step_thread (env : environment) (i : nat) (pool : list (prog unit)) (w : world)
         {struct pool} : list (prog unit) * world :=
  match pool with
  | [] => ([], w)
  | p :: rest =>
      match i with
      | O => let (p', w') := step env p w in (p' :: rest, w')
      | S i' => let (rest', w') := step_thread env i' rest w in (p :: rest', w')
      end
  end.

(** The threads of the pool take steps in the order of [schedule]. *)
Fixpoint interleave (env : environment) (schedule : list nat) (pool : list (prog unit))
         (w : world) : list (prog unit) * world :=
  match schedule with
  | [] => (pool, w)
  | i :: schedule' =>
      let (pool', w') := step_thread env i pool w in
      interleave env schedule' pool' w'
  end.

(** [plan clean p n]: whatever its calls answer, [p] performs
    [save_settings] at most [n] times; and when [clean] holds, exactly [n]
    times on the runs in which every call returns. *)
Inductive plan {A : Type} : bool -> prog A -> nat -> Prop :=
| plan_Ret (a : A) : plan true (Ret a) 0
| plan_Throw (e : exn) : plan true (Throw e) 0
| plan_Ret_bound (a : A) (n : nat) : plan false (Ret a) n
| plan_Throw_bound (e : exn) (n : nat) : plan false (Throw e) n
| plan_Call (clean : bool) (c : call) (k : result (answer c) -> prog A) (n : nat) :
    (forall a, plan clean (k (Ok a)) n) ->
    (forall e, plan false (k (Raise e)) n) ->
    plan clean (Call c k) ((if is_save_settings c then 1 else 0) + n)
| plan_TimeTime (clean : bool) (k : Q -> prog A) (n : nat) :
    (forall t, plan clean (k t) n) -> plan clean (TimeTime k) n
| plan_GetIpTimer (clean : bool) (k : Q -> prog A) (n : nat) :
    (forall t, plan clean (k t) n) -> plan clean (GetIpTimer k) n
| plan_SetIpTimer (clean : bool) (t : Q) (k : prog A) (n : nat) :
    plan clean k n -> plan clean (SetIpTimer t k) n.

(** The halt button is pressed while [SIGTERM] is being handled: the two
    handlers take turns, call by call, until both have saved. *)
Definition taking_turns : list nat :=
  [0; 1; 0; 1; 0; 1; 0; 1; 0; 1; 0; 1; 0; 1; 0; 1; 0; 1; 0]%nat.

(** As [taking_turns], and on until both handlers have raised their
    [SystemExit]. *)
Definition to_the_end : list nat := taking_turns ++ [0; 0; 1]%nat.

(** *** Expected traces *)

Definition configure_GPIO_events : list event :=
  [ Returned GPIO_setmode_BCM tt;
    Returned (GPIO_setup 27 GPIO.IN (Some GPIO.PUD_DOWN)) tt;
    Returned (GPIO_setup 23 GPIO.IN (Some GPIO.PUD_DOWN)) tt;
    Returned (GPIO_setup 24 GPIO.IN (Some GPIO.PUD_DOWN)) tt;
    Returned (GPIO_setup 25 GPIO.IN (Some GPIO.PUD_DOWN)) tt;
    Returned (GPIO_add_event_detect 27 GPIO.RISING volume_up_cb 200) tt;
    Returned (GPIO_add_event_detect 23 GPIO.RISING volume_down_cb 200) tt;
    Returned (GPIO_add_event_detect 24 GPIO.RISING next_radio_cb 200) tt;
    Returned (GPIO_add_event_detect 25 GPIO.RISING previous_radio_cb 200) tt ].

Definition load_events (config_file : string) (cfg : config) : list event :=
  [ Returned (ConfigLoader_init config_file) tt;
    Returned parse_config_file cfg;
    Returned (print "Configuration file loaded successfully") tt ].

Definition managers_events (cfg : config) : list event :=
  [ Returned (serial_Serial (serial_device cfg) (serial_baud_rate cfg) 1) tt;
    Returned (DisplayManager_init (name cfg) (halt_message cfg) (volume_timer cfg)
                (scroll_time_interval cfg) (scroll_time_pause cfg)) tt;
    Returned displayManager_start tt;
    Returned (PlayerManager_init (volume cfg)) tt;
    Returned (RadioManager_init (radios cfg) (volume cfg) (volume_step cfg)
                (radio_info_check_interval cfg) (full_radio_name_pause cfg)
                (radio_indice cfg)) tt ].

Definition set_as_ready_events : list event :=
  [ Returned (GPIO_setup 4 GPIO.OUT None) tt;
    Returned (GPIO_output 4 GPIO.LOW) tt;
    Returned (time_sleep (1 # 2)) tt;
    Returned (GPIO_setup 4 GPIO.IN (Some GPIO.PUD_UP)) tt;
    Returned (GPIO_add_event_detect 4 GPIO.FALLING halt_cb 200) tt ].

(** The calls of the address gesture when each of them returns. *)
Definition gesture_events (ip : string) : list event :=
  [ Returned (ifaddresses_addr "wlan0") ip;
    Returned (print ("IP address : " ++ ip)) tt;
    Returned (displayManager_on_thread (display_ip_address ip)) tt ].

Definition iteration_events : list event :=
  [ Returned check_radio_info tt;
    Returned update_player tt;
    Returned (time_sleep tick) tt ].

Fixpoint iterations (n : nat) : list event :=
  match n with
  | O => []
  | S n' => iteration_events ++ iterations n'
  end.

(** *** Environments used in examples *)

(** The settings file cannot be written. *)
Definition read_only_disk : environment :=
  fun h c =>
    match c as c0 return result (answer c0) with
    | save_settings _ _ => Raise (Exception "Read-only file system")
    | c0 => calm h c0
    end.

(** The configuration file is rejected by the loader. *)
Definition invalid_config : environment :=
  fun h c =>
    match c as c0 return result (answer c0) with
    | parse_config_file => Raise (Exception "radios is missing")
    | c0 => calm h c0
    end.

(** The interface has no address. *)
Definition no_address : environment :=
  fun h c =>
    match c as c0 return result (answer c0) with
    | ifaddresses_addr _ => Raise (Exception "2")
    | c0 => calm h c0
    end.

(** Ctrl-C arrives during the first [time.sleep] made once [n] calls are
    logged. *)
Definition ctrl_c_after (n : nat) : environment :=
  fun h c =>
    match c as c0 return result (answer c0) with
    | time_sleep _ => if (n <=? length h)%nat then Raise KeyboardInterrupt else Ok tt
    | c0 => calm h c0
    end.

(** The process right after the module was loaded, at some date of 2023. *)
Definition w0 : world := initial_world 1700000000.

(** Volume-down was pressed [0.3] seconds ago. *)
Definition down_just_pressed : world :=
  {| ip_timer := 1700000000; clock := 1700000000 + (3 # 10); trace := [] |}.

(** Two presses without a volume-down among them. *)
Definition two_presses : list (Q * callback) :=
  [ (1700000001, next_radio_cb); (1700000002, volume_up_cb) ].


(** *** More readings of traces *)

Definition is_SystemExit (e : exn) : bool :=
  match e with SystemExit _ => true | _ => false end.

Definition any_call (c : call) : bool := true.

Definition is_GPIO (c : call) : bool :=
  match c with
  | GPIO_setmode_BCM | GPIO_setup _ _ _ | GPIO_output _ _
  | GPIO_add_event_detect _ _ _ _ | GPIO_cleanup => true
  | _ => false
  end.

Definition is_GPIO_cleanup (c : call) : bool :=
  match c with GPIO_cleanup => true | _ => false end.

(** The calls of [init_radiobot] that come after the [try] statement. *)
Definition is_after_config (c : call) : bool :=
  match c with
  | serial_Serial _ _ _ | DisplayManager_init _ _ _ _ _ | displayManager_start
  | PlayerManager_init _ | RadioManager_init _ _ _ _ _ _ | play_radio => true
  | GPIO_setup 4 _ _ | GPIO_output 4 _ | GPIO_add_event_detect 4 _ _ _ => true
  | time_sleep _ => true
  | _ => false
  end.

(** The one call on the radio manager that a button, other than the halt
    button, stands for. *)
Definition route (cb : callback) : option call :=
  match cb with
  | volume_up_cb => Some volume_up
  | volume_down_cb => Some volume_down
  | next_radio_cb => Some next
  | previous_radio_cb => Some previous
  | halt_cb => None
  end.

(** The first four calls of [main]. *)
Definition prologue_events : list event :=
  [ Returned (print "Radiobot (v1.0)") tt;
    Returned (print "Written by Chuck182") tt;
    Returned (print EmptyString) tt;
    Returned signal_signal_SIGTERM tt ].

(** The calls of [init_radiobot] when each of them returns. *)
Definition startup_events (config_file : string) (cfg : config) : list event :=
  configure_GPIO_events ++ load_events config_file cfg ++ managers_events cfg
  ++ set_as_ready_events ++ [ Returned play_radio tt ].

(** What the calls [evs] of a startup that raised [e] look like: the
    settings were not saved, the first radio was not started, the GPIO was
    not released; and either [e] is the exit with status 2 of the
    [except] clause, nothing after the [try] statement having been
    called, or [e] is what the last call raised. *)
Definition startup_failure (evs : list event) (e : exn) : Prop :=
  attempted is_save_settings evs = false
  /\ done is_play_radio evs = false
  /\ attempted is_GPIO_cleanup evs = false
  /\ ((e = SystemExit 2 /\ attempted is_after_config evs = false)
      \/ exists pre c, evs = pre ++ [Raised c e]).

(** Ctrl-C arrives while the configuration file is parsed. *)
Definition ctrl_c_while_parsing : environment :=
  fun h c =>
    match c as c0 return result (answer c0) with
    | parse_config_file => Raise KeyboardInterrupt
    | c0 => calm h c0
    end.

(** The serial port of the display cannot be opened. *)
Definition no_serial_port : environment :=
  fun h c =>
    match c as c0 return result (answer c0) with
    | serial_Serial _ _ _ => Raise (Exception "could not open port")
    | c0 => calm h c0
    end.

(** The player has stopped answering. *)
Definition next_fails : environment :=
  fun h c =>
    match c as c0 return result (answer c0) with
    | next => Raise (Exception "player")
    | c0 => calm h c0
    end.

(** Next, volume-up and previous, any time after a volume-down. *)
Definition three_presses : list (Q * callback) :=
  [ (1700000000 + (1 # 10), next_radio_cb);
    (1700000000 + (2 # 10), volume_up_cb);
    (1700000000 + (1 # 4), previous_radio_cb) ].

(** The calls of the script started without an argument. *)
Definition usage_events : list event :=
  [ Returned (print "Missing configuration file path") tt;
    Returned (print "Exiting.") tt ].

(** The lives of the main thread: the calls it made, and how it ended or
    that it is still in the loop after [fuel] turns. *)
Inductive script_run (argv : list string) (fuel : nat)
  : list event -> result loop_status -> Prop :=
| no_argument :
    (length argv <= 1)%nat ->
    script_run argv fuel usage_events (Raise (SystemExit 2))
| no_argument_aborted (n : nat) (e : exn) :
    (length argv <= 1)%nat -> (n < 2)%nat ->
    script_run argv fuel (aborted_at usage_events n e) (Raise e)
| prologue_aborted (config_file : string) (n : nat) (e : exn) :
    nth_error argv 1 = Some config_file -> (n < 4)%nat ->
    script_run argv fuel (aborted_at prologue_events n e) (Raise e)
| startup_failed (config_file : string) (evs : list event) (e : exn) :
    nth_error argv 1 = Some config_file ->
    startup_failure evs e ->
    script_run argv fuel (prologue_events ++ evs) (Raise e)
| still_running (config_file : string) (cfg : config) :
    nth_error argv 1 = Some config_file ->
    script_run argv fuel
      (prologue_events ++ startup_events config_file cfg ++ iterations fuel)
      (Ok out_of_fuel)
| loop_crashed (config_file : string) (cfg : config) (n k : nat) (e : exn) :
    nth_error argv 1 = Some config_file ->
    (n < fuel)%nat -> (k < 3)%nat -> is_KeyboardInterrupt e = false ->
    script_run argv fuel
      (prologue_events ++ startup_events config_file cfg ++ iterations n
       ++ aborted_at iteration_events k e)
      (Raise e)
| shut_down (config_file : string) (cfg : config) (n k : nat) (vol indice : Z) :
    nth_error argv 1 = Some config_file ->
    (n < fuel)%nat -> (k < 3)%nat ->
    script_run argv fuel
      (prologue_events ++ startup_events config_file cfg ++ iterations n
       ++ aborted_at iteration_events k KeyboardInterrupt
       ++ shutdown_events vol indice)
      (Raise (SystemExit 0))
| shut_down_aborted (config_file : string) (cfg : config) (n k : nat)
                    (vol indice : Z) (m : nat) (e : exn) :
    nth_error argv 1 = Some config_file ->
    (n < fuel)%nat -> (k < 3)%nat -> (m < 10)%nat ->
    script_run argv fuel
      (prologue_events ++ startup_events config_file cfg ++ iterations n
       ++ aborted_at iteration_events k KeyboardInterrupt
       ++ aborted_at (shutdown_events vol indice) m e)
      (Raise e).

(** The command line [python main.py radiobot.json]. *)
Definition command_line : list string := ["main.py"; "radiobot.json"].

(** The stream of the radio cannot be read any more, once thirty calls
    are logged. *)
Definition stream_lost : environment :=
  fun h c =>
    match c as c0 return result (answer c0) with
    | check_radio_info =>
        if (30 <=? length h)%nat then Raise (Exception "stream") else Ok tt
    | c0 => calm h c0
    end.

(** *** [SIGTERM] on the main thread *)

(** Python runs the handler that [signal.signal] registered on the main
    thread, between two of its instructions; an exception the handler
    raises comes out where the main thread was.  [signals] says, from the
    calls logged so far, whether [SIGTERM] has arrived. *)
Definition signals : Type := list event -> bool.

Definition is_signal_registration (c : call) : bool :=
  match c with signal_signal_SIGTERM => true | _ => false end.

(** [signal.signal(signal.SIGTERM, sigterm_callback)] has returned. *)
Definition registered (evs : list event) : bool := done is_signal_registration evs.

(** With the calls [evs] logged, the handler is registered and a
    [SIGTERM] has arrived. *)
Definition sigterm_handled (sig : signals) (evs : list event) : bool :=
  registered evs && sig evs.

(** The main thread runs [p].  After each of its calls, once the handler
    is registered, a [SIGTERM] that has arrived makes it run
    [sigterm_callback]; what the handler raises is raised at that point of
    [p], in place of the outcome of the call. *)
Fixpoint run_main_thread (env : environment) (sig : signals) {A : Type}
         (p : prog A) (w : world) : world * result A :=
  match p with
  | Ret a => (w, Ok a)
  | Throw e => (w, Raise e)
  | Call c k =>
      let (w1, r) := exec env c w in
      if sigterm_handled sig (trace w1)
      then match run env (sigterm_callback 15 tt) w1 with
           | (w2, Raise e) => run_main_thread env sig (k (Raise e)) w2
           | (w2, Ok _) => run_main_thread env sig (k r) w2
           end
      else run_main_thread env sig (k r) w1
  | TimeTime k => run_main_thread env sig (k (clock w)) w
  | GetIpTimer k => run_main_thread env sig (k (ip_timer w)) w
  | SetIpTimer t k => run_main_thread env sig k (store_ip_timer t w)
  end.

(** Among the calls [new], logged after [before], there is one after
    which the main thread handled a [SIGTERM]. *)
Definition delivered (sig : signals) (before new : list event) : Prop :=
  exists pre post,
    new = pre ++ post /\ sigterm_handled sig (before ++ pre) = true.

(** No [SIGTERM] ever. *)
Definition no_sigterm : signals := fun _ => false.

(** [SIGTERM] arrives when exactly [n] calls are logged. *)
Definition sigterm_at (n : nat) : signals := fun h => (length h =? n)%nat.

(** [p] has no path to a normal end. *)
Inductive never_returns {A : Type} : prog A -> Prop :=
| nr_Throw (e : exn) : never_returns (Throw e)
| nr_Call (c : call) (k : result (answer c) -> prog A) :
    (forall r, never_returns (k r)) -> never_returns (Call c k)
| nr_TimeTime (k : Q -> prog A) :
    (forall t, never_returns (k t)) -> never_returns (TimeTime k)
| nr_GetIpTimer (k : Q -> prog A) :
    (forall t, never_returns (k t)) -> never_returns (GetIpTimer k)
| nr_SetIpTimer (t : Q) (k : prog A) :
    never_returns k -> never_returns (SetIpTimer t k).

(** [exit_guarded P saved p]: on every path of [p], a [SystemExit(0)]
    is raised only after a call satisfying [P] has returned, or [saved]
    holds already, or a call raised a [SystemExit] itself. *)
Inductive exit_guarded (P : call -> bool) {A : Type} : bool -> prog A -> Prop :=
| eg_Ret (saved : bool) (a : A) : exit_guarded P saved (Ret a)
| eg_Throw (saved : bool) (e : exn) :
    (e = SystemExit 0 -> saved = true) -> exit_guarded P saved (Throw e)
| eg_Call (saved : bool) (c : call) (k : result (answer c) -> prog A) :
    (forall a, exit_guarded P (saved || P c) (k (Ok a))) ->
    (forall e, exit_guarded P (saved || is_SystemExit e) (k (Raise e))) ->
    exit_guarded P saved (Call c k)
| eg_TimeTime (saved : bool) (k : Q -> prog A) :
    (forall t, exit_guarded P saved (k t)) -> exit_guarded P saved (TimeTime k)
| eg_GetIpTimer (saved : bool) (k : Q -> prog A) :
    (forall t, exit_guarded P saved (k t)) -> exit_guarded P saved (GetIpTimer k)
| eg_SetIpTimer (saved : bool) (t : Q) (k : prog A) :
    exit_guarded P saved k -> exit_guarded P saved (SetIpTimer t k).

(** The player has crashed, once thirty calls are logged. *)
Definition player_crashed : environment :=
  fun h c =>
    match c as c0 return result (answer c0) with
    | update_player =>
        if (30 <=? length h)%nat then Raise (Exception "vlc") else Ok tt
    | c0 => calm h c0
    end.
(** ** The interpreter: basic facts *)

Lemma extend_nil (w : world) : extend w [] = w.
Proof. destruct w; unfold extend; cbn. now rewrite app_nil_r. Qed.

Lemma extend_extend (w : world) (evs evs' : list event) :
  extend (extend w evs) evs' = extend w (evs ++ evs').
Proof. unfold extend; cbn. now rewrite app_assoc. Qed.

Lemma log_is_extend (ev : event) (w : world) : log ev w = extend w [ev].
Proof. reflexivity. Qed.

Lemma new_events_extend (w : world) (evs : list event) :
  new_events w (extend w evs) = evs.
Proof.
  unfold new_events, extend; cbn.
  rewrite skipn_app, skipn_all, Nat.sub_diag. reflexivity.
Qed.

Lemma new_events_app (w w' : world) (evs : list event) :
  trace w' = trace w ++ evs -> new_events w w' = evs.
Proof.
  intros H. unfold new_events. rewrite H, skipn_app, skipn_all, Nat.sub_diag.
  reflexivity.
Qed.

Lemma count_done_app (P : call -> bool) (evs evs' : list event) :
  count_done P (evs ++ evs') = (count_done P evs + count_done P evs')%nat.
Proof. unfold count_done. now rewrite filter_app, length_app. Qed.

Lemma completed_app (evs evs' : list event) :
  completed (evs ++ evs') = completed evs && completed evs'.
Proof. apply forallb_app. Qed.

Section Runs.
Variable env : environment.

Lemma run_bind {A B : Type} (p : prog A) (f : A -> prog B) (w : world) :
  run env (bind p f) w =
  match run env p w with
  | (w', Ok a) => run env (f a) w'
  | (w', Raise e) => (w', Raise e)
  end.
Proof.
  revert w. induction p as [a|e|c k IH|k IH|k IH|t k IH]; intros w; cbn.
  - reflexivity.
  - reflexivity.
  - destruct (exec env c w) as [w' r]. apply IH.
  - apply IH.
  - apply IH.
  - apply IH.
Qed.

Lemma run_catch {A : Type} (p : prog A) (h : exn -> prog A) (w : world) :
  run env (catch p h) w =
  match run env p w with
  | (w', Ok a) => (w', Ok a)
  | (w', Raise e) => run env (h e) w'
  end.
Proof.
  revert w. induction p as [a|e|c k IH|k IH|k IH|t k IH]; intros w; cbn.
  - reflexivity.
  - reflexivity.
  - destruct (exec env c w) as [w' r]. apply IH.
  - apply IH.
  - apply IH.
  - apply IH.
Qed.

Lemma run_invoke (c : call) (w : world) :
  run env (invoke c) w =
  match env (trace w) c with
  | Ok a => (log (Returned c a) w, Ok a)
  | Raise e => (log (Raised c e) w, Raise e)
  end.
Proof. cbn. unfold exec. destruct (env (trace w) c); reflexivity. Qed.

(** A run only ever appends to the trace, and leaves the clock alone. *)
Lemma run_extends {A : Type} (p : prog A) (w : world) :
  exists evs, trace (fst (run env p w)) = trace w ++ evs.
Proof.
  revert w. induction p as [a|e|c k IH|k IH|k IH|t k IH]; intros w; cbn.
  - exists []. now rewrite app_nil_r.
  - exists []. now rewrite app_nil_r.
  - unfold exec. destruct (env (trace w) c) as [a|e].
    + destruct (IH (Ok a) (log (Returned c a) w)) as [evs H].
      exists (Returned c a :: evs). rewrite H. cbn. now rewrite <- app_assoc.
    + destruct (IH (Raise e) (log (Raised c e) w)) as [evs H].
      exists (Raised c e :: evs). rewrite H. cbn. now rewrite <- app_assoc.
  - apply IH.
  - apply IH.
  - apply (IH (store_ip_timer t w)).
Qed.

End Runs.

(** Runs one call of the program under [run] and splits on its outcome. *)
Ltac run_call env :=
  unfold exec;
  match goal with
  | |- context [env ?h ?c] =>
      let a := fresh "a" in
      let e := fresh "e" in
      destruct (env h c) as [a|e];
      [ cbn in a; try match type of a with unit => destruct a end | ];
      cbn
  end.

Ltac normalise_world :=
  repeat rewrite log_is_extend; repeat rewrite extend_extend; cbn [app].

Ltac run_all env := cbn; repeat run_call env; normalise_world.

(** Closes a goal [exists vol indice, full \/ exists n e, aborted] once
    every call of the run has been split. *)
Ltac stopped_at k := right; exists k; eexists; split; [lia | reflexivity].

Ltac full_or_stopped :=
  first [ left; reflexivity
        | stopped_at 0%nat | stopped_at 1%nat | stopped_at 2%nat
        | stopped_at 3%nat | stopped_at 4%nat | stopped_at 5%nat
        | stopped_at 6%nat | stopped_at 7%nat | stopped_at 8%nat
        | stopped_at 9%nat | stopped_at 10%nat | stopped_at 11%nat ].

(** ** The shutdown sequence, case by case *)

(** [clean_exit] either makes all its calls and raises [SystemExit(0)],
    or stops at the first call that raises and lets the exception out. *)
Lemma clean_exit_cases (env : environment) (w : world) :
  exists vol indice,
    run env clean_exit w
    = (extend w (shutdown_events vol indice), Raise (SystemExit 0))
    \/ exists n e,
        (n < 10)%nat /\
        run env clean_exit w
        = (extend w (aborted_at (shutdown_events vol indice) n e), Raise e).
Proof.
  run_all env; eexists; eexists; full_or_stopped.
  Unshelve. all: exact 0%Z.
Qed.

Lemma clean_exit_and_shutdown_cases (env : environment) (w : world) :
  exists vol indice,
    run env clean_exit_and_shutdown w
    = (extend w (power_off_events vol indice), Raise (SystemExit 0))
    \/ exists n e,
        (n < 11)%nat /\
        run env clean_exit_and_shutdown w
        = (extend w (aborted_at (power_off_events vol indice) n e), Raise e).
Proof.
  run_all env; eexists; eexists; full_or_stopped.
  Unshelve. all: exact 0%Z.
Qed.

(** Splits [n < k] into the cases [n = 0], ..., [n = k - 1]. *)
Ltac each_position n :=
  repeat (destruct n as [|n]; [ | try lia ]).

(** ** The shutdown sequence *)

(** Exhibits the calls made before the one that raised. *)
Ltac split_last_raised :=
  match goal with
  | |- exists pre c e, ?l = _ /\ _ =>
      exists (removelast l); cbn; eexists; eexists; repeat split; reflexivity
  end.

(** C4.  Every run of the shutdown sequence makes its calls in the order
    of [shutdown_events]: the GPIO is released, then the display is told
    to terminate, then the volume and the radio index are read from the
    radio manager and handed to [save_settings]; only after that does
    [clean_exit] raise [SystemExit(0)], and does [clean_exit_and_shutdown]
    call [shutdown -h now] and then raise [SystemExit(0)].  A run in which
    a call raises is a prefix of that order, cut at the raising call. *)
Theorem shutdown_steps_in_order (env : environment) (w : world) :
  (exists vol indice,
      (new_events w (fst (run env clean_exit w)) = shutdown_events vol indice
       /\ snd (run env clean_exit w) = Raise (SystemExit 0))
      \/ exists n e,
          (n < 10)%nat
          /\ new_events w (fst (run env clean_exit w))
             = aborted_at (shutdown_events vol indice) n e
          /\ snd (run env clean_exit w) = Raise e)
  /\
  (exists vol indice,
      (new_events w (fst (run env clean_exit_and_shutdown w)) = power_off_events vol indice
       /\ snd (run env clean_exit_and_shutdown w) = Raise (SystemExit 0))
      \/ exists n e,
          (n < 11)%nat
          /\ new_events w (fst (run env clean_exit_and_shutdown w))
             = aborted_at (power_off_events vol indice) n e
          /\ snd (run env clean_exit_and_shutdown w) = Raise e).
Proof.
  split.
  - destruct (clean_exit_cases env w) as (vol & indice & [H | (n & e & Hn & H)]);
      exists vol, indice; rewrite H; cbn [fst snd]; rewrite new_events_extend.
    + left. split; reflexivity.
    + right. exists n, e. repeat split; assumption.
  - destruct (clean_exit_and_shutdown_cases env w) as (vol & indice & [H | (n & e & Hn & H)]);
      exists vol, indice; rewrite H; cbn [fst snd]; rewrite new_events_extend.
    + left. split; reflexivity.
    + right. exists n, e. repeat split; assumption.
Qed.

(** C5, as the code has it.  No call of the shutdown sequence is
    protected: either every call returns, and then the sequence ends in
    [SystemExit(0)], after [shutdown -h now] on the halting path; or a
    call raises, nothing is called after it, the power-off has not been
    requested, and the exception leaves the sequence in place of the
    exit. *)
Theorem shutdown_error_aborts (env : environment) (w : world) (power_off : bool) :
  (completed (new_events w (fst (run env (shutdown_sequence power_off) w))) = true
   /\ snd (run env (shutdown_sequence power_off) w) = Raise (SystemExit 0)
   /\ done is_power_off (new_events w (fst (run env (shutdown_sequence power_off) w)))
      = power_off)
  \/ exists pre c e,
      new_events w (fst (run env (shutdown_sequence power_off) w)) = pre ++ [Raised c e]
      /\ completed pre = true
      /\ attempted is_power_off pre = false
      /\ snd (run env (shutdown_sequence power_off) w) = Raise e.
Proof.
  destruct power_off; unfold shutdown_sequence.
  - destruct (clean_exit_and_shutdown_cases env w) as (vol & indice & [H | (n & e & Hn & H)]);
      rewrite H; cbn [fst snd]; rewrite new_events_extend.
    + left. repeat split; reflexivity.
    + right. each_position n; cbn; split_last_raised.
  - destruct (clean_exit_cases env w) as (vol & indice & [H | (n & e & Hn & H)]);
      rewrite H; cbn [fst snd]; rewrite new_events_extend.
    + left. repeat split; reflexivity.
    + right. each_position n; cbn; split_last_raised.
Qed.

(** C5 as stated fails: when [save_settings] raises on the halt-button
    path, the exception is what comes out, and [shutdown -h now] is never
    called. *)
Lemma failing_save_prevents_power_off :
  snd (run read_only_disk clean_exit_and_shutdown w0)
  = Raise (Exception "Read-only file system")
  /\ snd (run read_only_disk clean_exit_and_shutdown w0) <> Raise (SystemExit 0)
  /\ attempted is_power_off (trace (fst (run read_only_disk clean_exit_and_shutdown w0)))
     = false.
Proof.
  split; [reflexivity | split; [ | reflexivity ] ].
  vm_compute. discriminate.
Qed.

(** ** The foreground loop *)

Lemma loop_body_cases (env : environment) (w : world) :
  run env loop_body w = (extend w iteration_events, Ok tt)
  \/ exists k e,
      (k < 3)%nat
      /\ run env loop_body w = (extend w (aborted_at iteration_events k e), Raise e).
Proof.
  run_all env.
  - left. reflexivity.
  - right. exists 2%nat, e. split; [lia | reflexivity].
  - right. exists 1%nat, e. split; [lia | reflexivity].
  - right. exists 0%nat, e. split; [lia | reflexivity].
Qed.

(** [fuel] turns of the loop: all of them ran, or a call raised in turn
    [n + 1]. *)
Lemma while_True_cases (env : environment) (fuel : nat) (w : world) :
  run env (while_True fuel loop_body) w = (extend w (iterations fuel), Ok out_of_fuel)
  \/ exists n k e,
      (n < fuel)%nat /\ (k < 3)%nat
      /\ run env (while_True fuel loop_body) w
         = (extend w (iterations n ++ aborted_at iteration_events k e), Raise e).
Proof.
  revert w. induction fuel as [|fuel IH]; intros w.
  - left. cbn. now rewrite extend_nil.
  - cbn [while_True]. rewrite run_bind.
    destruct (loop_body_cases env w) as [H | (k & e & Hk & H)]; rewrite H.
    + destruct (IH (extend w iteration_events)) as [H' | (n & k & e & Hn & Hk & H')];
        rewrite H', extend_extend.
      * left. reflexivity.
      * right. exists (S n), k, e. repeat split; lia.
    + right. exists 0%nat, k, e. repeat split; lia.
Qed.

Lemma iterations_completed (n : nat) : completed (iterations n) = true.
Proof. induction n as [|n IH]; [reflexivity | exact IH]. Qed.

Lemma iterations_attempted (P : call -> bool) (n : nat) :
  attempted P iteration_events = false -> attempted P (iterations n) = false.
Proof.
  intros H. induction n as [|n IH]; [reflexivity|].
  cbn [iterations]. unfold attempted in *. rewrite existsb_app, H, IH. reflexivity.
Qed.

(** [clean_exit] never returns to its caller. *)
Lemma clean_exit_raises (env : environment) (w : world) :
  exists e, snd (run env clean_exit w) = Raise e.
Proof.
  destruct (clean_exit_cases env w) as (vol & indice & [H | (n & e & Hn & H)]);
    rewrite H; eexists; reflexivity.
Qed.

(** ** The triggers of the shutdown sequence *)

Lemma shutdown_on_cases (env : environment) (t : trigger) (w : world) :
  exists vol indice,
    run env (shutdown_on t) w
    = (extend w (trigger_events t vol indice), Raise (SystemExit 0))
    \/ exists n e,
        (n < length (trigger_events t vol indice))%nat /\
        run env (shutdown_on t) w
        = (extend w (aborted_at (trigger_events t vol indice) n e), Raise e).
Proof.
  destruct t; cbn [shutdown_on sigterm_callback].
  - run_all env; eexists; eexists; cbn [length trigger_events power_off_events
                                         shutdown_events app]; full_or_stopped.
    Unshelve. all: exact 0%Z.
  - destruct (clean_exit_cases env w) as (vol & indice & [H | (n & e & Hn & H)]);
      exists vol, indice; [left | right; exists n, e; split]; assumption.
  - destruct (clean_exit_cases env w) as (vol & indice & [H | (n & e & Hn & H)]);
      exists vol, indice; [left | right; exists n, e; split]; assumption.
Qed.

Lemma attempted_app (P : call -> bool) (evs evs' : list event) :
  attempted P (evs ++ evs') = attempted P evs || attempted P evs'.
Proof. apply existsb_app. Qed.

(** *** Calls that a program never makes *)

Section Never.
Variable P : call -> bool.

Lemma new_events_refl (w : world) : new_events w w = [].
Proof. unfold new_events. apply skipn_all. Qed.

(** What two runs in a row logged is what each of them logged. *)
Lemma new_events_run {A B : Type} (env : environment) (p : prog A) (q : prog B)
      (w : world) :
  new_events w (fst (run env q (fst (run env p w))))
  = new_events w (fst (run env p w))
    ++ new_events (fst (run env p w)) (fst (run env q (fst (run env p w)))).
Proof.
  destruct (run_extends env p w) as [evs1 H1].
  destruct (run_extends env q (fst (run env p w))) as [evs2 H2].
  rewrite (@new_events_app _ _ _ H1), (@new_events_app _ _ _ H2).
  apply new_events_app. rewrite H2, H1. now rewrite app_assoc.
Qed.

Lemma never_ret {A : Type} (a : A) : never P (ret a).
Proof. intros env w. cbn. now rewrite new_events_refl. Qed.

Lemma never_raise {A : Type} (e : exn) : never P (raise e : prog A).
Proof. intros env w. cbn. now rewrite new_events_refl. Qed.

Lemma never_invoke (c : call) : P c = false -> never P (invoke c).
Proof.
  intros Hc env w. rewrite run_invoke.
  destruct (env (trace w) c) as [a|e]; cbn [fst]; rewrite log_is_extend,
    new_events_extend; unfold attempted; cbn; now rewrite Hc.
Qed.

Lemma never_bind {A B : Type} (p : prog A) (f : A -> prog B) :
  never P p -> (forall a, never P (f a)) -> never P (bind p f).
Proof.
  intros Hp Hf env w. rewrite run_bind.
  specialize (Hp env w).
  destruct (run env p w) as [w1 [a|e]] eqn:Hrun; cbn [fst] in *.
  - pose proof (new_events_run env p (f a) w) as Hnew.
    rewrite Hrun in Hnew. cbn [fst] in Hnew.
    rewrite Hnew, attempted_app, Hp. apply Hf.
  - exact Hp.
Qed.

Lemma never_catch {A : Type} (p : prog A) (h : exn -> prog A) :
  never P p -> (forall e, never P (h e)) -> never P (catch p h).
Proof.
  intros Hp Hh env w. rewrite run_catch.
  specialize (Hp env w).
  destruct (run env p w) as [w1 [a|e]] eqn:Hrun; cbn [fst] in *.
  - exact Hp.
  - pose proof (new_events_run env p (h e) w) as Hnew.
    rewrite Hrun in Hnew. cbn [fst] in Hnew.
    rewrite Hnew, attempted_app, Hp. apply Hh.
Qed.

Lemma never_while_True (fuel : nat) (body : prog unit) :
  never P body -> never P (while_True fuel body).
Proof.
  intros Hbody. induction fuel as [|fuel IH]; cbn [while_True].
  - apply never_ret.
  - apply never_bind; [exact Hbody | intros _; exact IH].
Qed.

End Never.

(** Takes a program apart along its binds and handlers, down to its
    calls. *)
Ltac never_by_structure :=
  repeat first
         [ apply never_ret
         | apply never_raise
         | match goal with
           | |- never ?P (invoke ?c) => apply (@never_invoke P c); reflexivity
           end
         | apply never_while_True
         | apply never_bind; [ | intros ? ]
         | apply never_catch; [ | intros [?| |?] ] ].

Lemma clean_exit_never_powers_off : never is_power_off clean_exit.
Proof. unfold clean_exit, sys_exit. never_by_structure. Qed.

(** Nothing that the main thread runs from the start of the script calls
    [shutdown -h now]. *)
Lemma script_never_powers_off (argv : list string) (fuel : nat) :
  never is_power_off (script argv fuel).
Proof.
  pose proof clean_exit_never_powers_off as Hexit.
  unfold script, main, init_radiobot, configure_GPIO, set_as_ready, foreground_loop,
    loop_body, try_except_Exception, try_except_KeyboardInterrupt, sys_exit.
  destruct argv as [|arg0 [|config_file argv]]; never_by_structure; exact Hexit.
Qed.

Lemma foreground_loop_never_powers_off (fuel : nat) :
  never is_power_off (foreground_loop fuel).
Proof.
  pose proof clean_exit_never_powers_off as Hexit.
  unfold foreground_loop, loop_body, try_except_KeyboardInterrupt.
  never_by_structure; exact Hexit.
Qed.

(** C2.  Of the three triggers of the shutdown sequence only the halt
    button leads to a call of [shutdown -h now].  [SIGTERM] and a
    keyboard interruption never call it, whatever the other calls do;
    when their calls return they release the GPIO, terminate the display,
    save the settings and raise [SystemExit(0)], which ends the process of
    the controller.  The halt button, when its calls return, does the same
    and calls [shutdown -h now] before it exits.  The foreground loop, in
    which the keyboard interruption is caught, the script as a whole as
    the main thread runs it, and the four other button listeners never
    call it either. *)
Theorem only_halt_button_powers_off (env : environment) (w : world) :
  (forall t,
      attempted is_power_off (new_events w (fst (run env (shutdown_on t) w))) = true ->
      t = halt_button)
  /\ (forall t,
         completed (new_events w (fst (run env (shutdown_on t) w))) = true ->
         snd (run env (shutdown_on t) w) = Raise (SystemExit 0)
         /\ (exists vol indice,
                new_events w (fst (run env (shutdown_on t) w)) = trigger_events t vol indice)
         /\ done is_power_off (new_events w (fst (run env (shutdown_on t) w)))
            = powers_off t)
  /\ (forall fuel,
         attempted is_power_off (new_events w (fst (run env (foreground_loop fuel) w)))
         = false)
  /\ (forall argv fuel,
         attempted is_power_off (new_events w (fst (run env (script argv fuel) w)))
         = false)
  /\ (forall cb channel,
         cb <> halt_cb ->
         attempted is_power_off (new_events w (fst (run env (listener cb channel) w)))
         = false).
Proof.
  split; [ | split; [ | split; [ | split ] ] ].
  - intros t.
    destruct (shutdown_on_cases env t w) as (vol & indice & [H | (n & e & Hn & H)]);
      rewrite H; cbn [fst]; rewrite new_events_extend; destruct t;
      try reflexivity; try discriminate.
    + cbn in Hn. clear H. each_position n; discriminate.
    + cbn in Hn. clear H. each_position n; discriminate.
  - intros t.
    destruct (shutdown_on_cases env t w) as (vol & indice & [H | (n & e & Hn & H)]);
      rewrite H; cbn [fst snd]; rewrite new_events_extend.
    + intros _. split; [reflexivity | split ].
      * exists vol, indice. reflexivity.
      * destruct t; reflexivity.
    + clear H. destruct t; cbn in Hn; each_position n; discriminate.
  - intros fuel. apply foreground_loop_never_powers_off.
  - intros argv fuel. apply script_never_powers_off.
  - intros cb channel Hcb. destruct cb; try contradiction; cbn [listener].
    + unfold volume_up_callback. cbn.
      destruct (Qltb (clock w - ip_timer w) window); run_all env;
        rewrite ?new_events_extend, ?extend_nil; try reflexivity.
      all: unfold new_events; rewrite skipn_all; reflexivity.
    + run_all env.
      all: unfold new_events; cbn; rewrite skipn_app, skipn_all, Nat.sub_diag;
        reflexivity.
    + run_all env; rewrite new_events_extend; reflexivity.
    + run_all env; rewrite new_events_extend; reflexivity.
Qed.

(** ** How often the settings are saved *)

Lemma plan_bound {A : Type} (clean : bool) (p : prog A) (n : nat) :
  plan clean p n -> plan false p n.
Proof.
  induction 1; try constructor; auto.
Qed.

Lemma plan_drop {A : Type} (clean b : bool) (p : prog A) (n : nat) :
  plan clean p n -> plan (clean && b) p n.
Proof.
  intros H. destruct b.
  - now rewrite andb_true_r.
  - rewrite andb_false_r. exact (plan_bound H).
Qed.

Lemma plan_finished {A : Type} (p : prog A) (n : nat) :
  plan true p n -> finished p = true -> n = 0%nat.
Proof.
  intros H. inversion H; subst; cbn; try reflexivity; discriminate.
Qed.

(** One step of a thread uses up what it performs of its plan. *)
Lemma plan_step {A : Type} (env : environment) (clean : bool) (p : prog A)
      (n : nat) (w : world) :
  plan clean p n ->
  exists evs n',
    trace (snd (step env p w)) = trace w ++ evs
    /\ plan (clean && completed evs) (fst (step env p w)) n'
    /\ (count_done is_save_settings evs + n' <= n)%nat
    /\ (completed evs = true -> (count_done is_save_settings evs + n')%nat = n).
Proof.
  intros H. destruct H as [a|e|a n|e n|clean c k n Hok Hraise|clean k n Hk
                           |clean k n Hk|clean t k n Hk]; cbn [step fst snd].
  - exists [], 0%nat. rewrite app_nil_r. repeat split; constructor.
  - exists [], 0%nat. rewrite app_nil_r. repeat split; constructor.
  - exists [], n. rewrite app_nil_r. repeat split; constructor.
  - exists [], n. rewrite app_nil_r. repeat split; constructor.
  - unfold exec. destruct (env (trace w) c) as [a|e]; cbn [fst snd log trace].
    + exists [Returned c a], n. rewrite andb_true_r. repeat split.
      * apply Hok.
      * unfold count_done; cbn. destruct (is_save_settings c); cbn; lia.
      * unfold count_done; cbn. destruct (is_save_settings c); cbn; lia.
    + exists [Raised c e], n. rewrite andb_false_r. repeat split.
      * apply Hraise.
      * unfold count_done; cbn. lia.
      * discriminate.
  - exists [], n. rewrite app_nil_r, andb_true_r. repeat split; auto.
  - exists [], n. rewrite app_nil_r, andb_true_r. repeat split; auto.
  - exists [], n. rewrite app_nil_r, andb_true_r. repeat split; auto.
Qed.

Lemma list_sum_cons (n : nat) (ns : list nat) :
  list_sum (n :: ns) = (n + list_sum ns)%nat.
Proof. reflexivity. Qed.

Lemma plans_drop (clean b : bool) (pool : list (prog unit)) (ns : list nat) :
  Forall2 (plan clean) pool ns -> Forall2 (plan (clean && b)) pool ns.
Proof. induction 1; constructor; auto using plan_drop. Qed.

Lemma plan_step_thread (env : environment) (clean : bool) (i : nat)
      (pool : list (prog unit)) (ns : list nat) (w : world) :
  Forall2 (plan clean) pool ns ->
  exists evs ns',
    trace (snd (step_thread env i pool w)) = trace w ++ evs
    /\ Forall2 (plan (clean && completed evs)) (fst (step_thread env i pool w)) ns'
    /\ (count_done is_save_settings evs + list_sum ns' <= list_sum ns)%nat
    /\ (completed evs = true ->
        (count_done is_save_settings evs + list_sum ns')%nat = list_sum ns).
Proof.
  intros H. revert i. induction H as [|p n pool ns Hp Hpool IH]; intros i.
  - exists [], []. cbn. rewrite app_nil_r. repeat split; constructor.
  - destruct i as [|i]; cbn [step_thread].
    + destruct (plan_step env w Hp) as (evs & n' & Htr & Hplan & Hle & Heq).
      destruct (step env p w) as [p' w']. cbn [fst snd] in *.
      exists evs, (n' :: ns). repeat split.
      * exact Htr.
      * constructor; [exact Hplan | now apply plans_drop].
      * rewrite !list_sum_cons. lia.
      * intros Hc. specialize (Heq Hc). rewrite !list_sum_cons. lia.
    + destruct (IH i) as (evs & ns' & Htr & Hplan & Hle & Heq).
      destruct (step_thread env i pool w) as [pool' w']. cbn [fst snd] in *.
      exists evs, (n :: ns'). repeat split.
      * exact Htr.
      * constructor; [now apply plan_drop | exact Hplan].
      * rewrite !list_sum_cons. lia.
      * intros Hc. specialize (Heq Hc). rewrite !list_sum_cons. lia.
Qed.

(** Along any schedule, the saves performed and the saves still planned
    never exceed the plan, and add up to it while no call has raised. *)
Lemma plan_interleave (env : environment) (schedule : list nat) :
  forall (clean : bool) (pool : list (prog unit)) (ns : list nat) (w : world),
    Forall2 (plan clean) pool ns ->
    exists evs ns',
      trace (snd (interleave env schedule pool w)) = trace w ++ evs
      /\ Forall2 (plan (clean && completed evs)) (fst (interleave env schedule pool w)) ns'
      /\ (count_done is_save_settings evs + list_sum ns' <= list_sum ns)%nat
      /\ (completed evs = true ->
          (count_done is_save_settings evs + list_sum ns')%nat = list_sum ns).
Proof.
  induction schedule as [|i schedule IH]; intros clean pool ns w H.
  - exists [], ns. cbn. rewrite app_nil_r, andb_true_r. repeat split; auto.
  - cbn [interleave].
    destruct (plan_step_thread env i w H) as (evs1 & ns1 & Htr1 & Hplan1 & Hle1 & Heq1).
    destruct (step_thread env i pool w) as [pool1 w1]. cbn [fst snd] in *.
    destruct (IH _ _ _ w1 Hplan1) as (evs2 & ns2 & Htr2 & Hplan2 & Hle2 & Heq2).
    exists (evs1 ++ evs2), ns2. repeat split.
    + rewrite Htr2, Htr1. now rewrite app_assoc.
    + rewrite completed_app, andb_assoc. exact Hplan2.
    + rewrite count_done_app. lia.
    + rewrite completed_app, andb_true_iff. intros [Hc1 Hc2].
      specialize (Heq1 Hc1). specialize (Heq2 Hc2). rewrite count_done_app. lia.
Qed.

Lemma plan_Call_eq {A : Type} (clean : bool) (c : call)
      (k : result (answer c) -> prog A) (n m : nat) :
  (forall a, plan clean (k (Ok a)) n) ->
  (forall e, plan false (k (Raise e)) n) ->
  m = ((if is_save_settings c then 1 else 0) + n)%nat ->
  plan clean (Call c k) m.
Proof. intros Hok Hraise ->. now constructor. Qed.

(** Follows a straight-line program to its end, counting the saves. *)
Ltac plan_to_the_end :=
  intros; cbn;
  first [ apply plan_Throw | apply plan_Throw_bound
        | apply plan_Ret | apply plan_Ret_bound
        | eapply plan_Call_eq; [ plan_to_the_end | plan_to_the_end | cbn; reflexivity ] ].

(** Each trigger plans exactly one [save_settings]. *)
Lemma plan_shutdown_on (t : trigger) : plan true (shutdown_on t) 1.
Proof. destruct t; plan_to_the_end. Qed.

Lemma plans_shutdown_on (ts : list trigger) :
  Forall2 (plan true) (map shutdown_on ts) (repeat 1%nat (length ts)).
Proof.
  induction ts as [|t ts IH]; cbn; constructor; auto using plan_shutdown_on.
Qed.

Lemma list_sum_repeat_1 (n : nat) : list_sum (repeat 1%nat n) = n.
Proof.
  induction n as [|n IH]; cbn [repeat]; [reflexivity|].
  now rewrite list_sum_cons, IH.
Qed.

Lemma plans_finished (pool : list (prog unit)) (ns : list nat) :
  Forall2 (plan true) pool ns -> forallb finished pool = true -> list_sum ns = 0%nat.
Proof.
  induction 1 as [|p n pool ns Hp Hpool IH]; cbn [forallb]; [reflexivity|].
  rewrite andb_true_iff. intros [Hf Hfs].
  rewrite list_sum_cons, (plan_finished Hp Hf), (IH Hfs). reflexivity.
Qed.

(** The step semantics of threads agrees with [run]. *)
Lemma run_step {A : Type} (env : environment) (p : prog A) (w : world) :
  run env (fst (step env p w)) (snd (step env p w)) = run env p w.
Proof.
  destruct p as [a|e|c k|k|k|t k]; cbn; try reflexivity.
  destruct (exec env c w) as [w' r]. reflexivity.
Qed.

(** C1, as the code has it.  [main.py] keeps no shutdown flag: each
    trigger runs the shutdown sequence unconditionally.  One run of a
    trigger's handler performs [save_settings] at most once, and exactly
    once when all its calls return.  When the handlers of several
    triggers run as threads, under any schedule, [save_settings] is
    performed at most once per trigger, and exactly once per trigger when
    every handler has run to its end and no call has raised: twice for
    two triggers. *)
Theorem settings_saved_once_per_trigger
        (env : environment) (schedule : list nat) (ts : list trigger) (w : world) :
  (count_done is_save_settings
     (new_events w (snd (interleave env schedule (map shutdown_on ts) w)))
   <= length ts)%nat
  /\ (forallb finished (fst (interleave env schedule (map shutdown_on ts) w)) = true ->
      completed (new_events w (snd (interleave env schedule (map shutdown_on ts) w)))
      = true ->
      count_done is_save_settings
        (new_events w (snd (interleave env schedule (map shutdown_on ts) w)))
      = length ts)
  /\ (forall t,
         (count_done is_save_settings (new_events w (fst (run env (shutdown_on t) w)))
          <= 1)%nat
         /\ (completed (new_events w (fst (run env (shutdown_on t) w))) = true ->
             count_done is_save_settings
               (new_events w (fst (run env (shutdown_on t) w))) = 1%nat)).
Proof.
  destruct (plan_interleave env schedule w (plans_shutdown_on ts))
    as (evs & ns & Htr & Hplan & Hle & Heq).
  rewrite list_sum_repeat_1 in Hle, Heq.
  rewrite (@new_events_app _ _ _ Htr).
  split; [lia | split].
  - intros Hfin Hc. rewrite Hc in Hplan. cbn [andb] in Hplan.
    specialize (Heq Hc). rewrite (plans_finished Hplan Hfin) in Heq. lia.
  - intros t.
    destruct (shutdown_on_cases env t w) as (vol & indice & [H | (n & e & Hn & H)]);
      rewrite H; cbn [fst]; rewrite new_events_extend.
    + destruct t; split; try reflexivity; cbn; lia.
    + clear H. destruct t; cbn in Hn; each_position n; split; cbn; try lia;
        discriminate.
Qed.

(** C1 as stated fails: the halt button and [SIGTERM] taking turns, both
    handlers reach [save_settings] and both perform it, before either of
    them has exited. *)
Lemma halt_button_and_sigterm_save_twice :
  count_done is_save_settings
    (trace (snd (interleave calm taking_turns
                   [shutdown_on halt_button; shutdown_on termination_signal] w0)))
  = 2%nat
  /\ existsb finished
       (fst (interleave calm taking_turns
               [shutdown_on halt_button; shutdown_on termination_signal] w0))
     = false.
Proof. split; vm_compute; reflexivity. Qed.

(** ** The volume buttons *)

Lemma Qltb_lt (x y : Q) : Qltb x y = true <-> x < y.
Proof.
  unfold Qltb. rewrite negb_true_iff. split.
  - intros H. apply Qnot_le_lt. intros Hle.
    apply Qle_bool_iff in Hle. congruence.
  - intros H. destruct (Qle_bool y x) eqn:Hb; [|reflexivity].
    apply Qle_bool_iff in Hb. exfalso. exact (Qlt_not_le _ _ H Hb).
Qed.

Lemma Qltb_not_lt (x y : Q) : Qltb x y = false <-> ~ x < y.
Proof.
  rewrite <- Qltb_lt. destruct (Qltb x y); split; intros H; congruence.
Qed.

(** Within the window the listener tries the address gesture and returns
    whatever happens in it; otherwise it calls [volume_up()]. *)
Lemma volume_up_callback_cases (env : environment) (channel : Z) (w : world) :
  (clock w - ip_timer w < window
   /\ exists ip,
       run env (volume_up_callback channel) w = (extend w (gesture_events ip), Ok tt)
       \/ exists n e,
           (n < 3)%nat
           /\ run env (volume_up_callback channel) w
              = (extend w (aborted_at (gesture_events ip) n e), Ok tt))
  \/ (~ clock w - ip_timer w < window
      /\ (run env (volume_up_callback channel) w = (extend w [Returned volume_up tt], Ok tt)
          \/ exists e,
              run env (volume_up_callback channel) w
              = (extend w [Raised volume_up e], Raise e))).
Proof.
  unfold volume_up_callback. cbn.
  destruct (Qltb (clock w - ip_timer w) window) eqn:Hwin.
  - left. split; [now apply Qltb_lt|].
    run_all env.
    + exists a. left. reflexivity.
    + exists a. right. exists 2%nat, e. split; [lia | reflexivity].
    + exists a. right. exists 1%nat, e. split; [lia | reflexivity].
    + exists EmptyString. right. exists 0%nat, e. split; [lia | reflexivity].
  - right. split; [now apply Qltb_not_lt|].
    run_all env.
    + left. reflexivity.
    + right. exists e. reflexivity.
Qed.

Lemma volume_down_callback_cases (env : environment) (channel : Z) (w : world) :
  run env (volume_down_callback channel) w
  = (extend (store_ip_timer (clock w) w) [Returned volume_down tt], Ok tt)
  \/ exists e,
      run env (volume_down_callback channel) w
      = (extend (store_ip_timer (clock w) w) [Raised volume_down e], Raise e).
Proof.
  run_all env.
  - left. reflexivity.
  - right. exists e. reflexivity.
Qed.

Lemma new_events_at_time (w : world) (t : Q) (evs : list event) :
  new_events w (extend (at_time t w) evs) = evs.
Proof. apply new_events_app. reflexivity. Qed.

Lemma new_events_store (w : world) (t : Q) (evs : list event) :
  new_events w (extend (store_ip_timer t w) evs) = evs.
Proof. apply new_events_app. reflexivity. Qed.

(** The world in which the volume-down button was pressed at [t]. *)
Lemma press_volume_down (env : environment) (t : Q) (w : world) :
  ip_timer (fst (press env t volume_down_cb w)) = t
  /\ clock (fst (press env t volume_down_cb w)) = t
  /\ map call_of (new_events w (fst (press env t volume_down_cb w))) = [volume_down].
Proof.
  unfold press. cbn [listener pin_of].
  destruct (volume_down_callback_cases env 23 (at_time t w)) as [H | (e & H)];
    rewrite H; cbn [fst]; repeat split;
    unfold new_events; cbn; now rewrite skipn_app, skipn_all, Nat.sub_diag.
Qed.

(** C3.  The stamps are rational numbers of seconds, taken at least
    [0.4] seconds after the epoch, where the subtraction of floats of the
    source decides as the exact one does.  Volume-down pressed at [t_down]
    stores [t_down] in [ip_timer] and calls [volume_down()].  Volume-up
    pressed next, at [t_up], is taken as the address gesture if and only
    if [t_up - t_down < 0.4].  Within the window [volume_up()] is not
    called: the listener looks the address of [wlan0] up, prints it and
    hands it to the display, in this order, stops at the first of these
    calls that raises, and returns normally.  From the window on
    [volume_up()] is the one call made. *)
Theorem double_press_gesture
        (env : environment) (w : world) (t_down t_up : Q)
        (Hepoch : window <= t_down) :
  ip_timer (fst (press env t_down volume_down_cb w)) = t_down
  /\ map call_of (new_events w (fst (press env t_down volume_down_cb w))) = [volume_down]
  /\ (attempted is_address_lookup
        (new_events (fst (press env t_down volume_down_cb w))
           (fst (press env t_up volume_up_cb (fst (press env t_down volume_down_cb w)))))
      = true
      <-> t_up - t_down < window)
  /\ (t_up - t_down < window ->
      attempted is_volume_up
        (new_events (fst (press env t_down volume_down_cb w))
           (fst (press env t_up volume_up_cb (fst (press env t_down volume_down_cb w)))))
      = false
      /\ snd (press env t_up volume_up_cb (fst (press env t_down volume_down_cb w)))
         = Ok tt
      /\ exists ip,
          new_events (fst (press env t_down volume_down_cb w))
            (fst (press env t_up volume_up_cb (fst (press env t_down volume_down_cb w))))
          = gesture_events ip
          \/ exists n e,
              (n < 3)%nat
              /\ new_events (fst (press env t_down volume_down_cb w))
                   (fst (press env t_up volume_up_cb
                           (fst (press env t_down volume_down_cb w))))
                 = aborted_at (gesture_events ip) n e)
  /\ (~ t_up - t_down < window ->
      map call_of
        (new_events (fst (press env t_down volume_down_cb w))
           (fst (press env t_up volume_up_cb (fst (press env t_down volume_down_cb w)))))
      = [volume_up]).
Proof.
  destruct (press_volume_down env t_down w) as (Htimer & _ & Hdown).
  split; [exact Htimer | split; [exact Hdown | ] ].
  set (w1 := fst (press env t_down volume_down_cb w)) in *.
  unfold press. cbn [listener pin_of].
  destruct (volume_up_callback_cases env 27 (at_time t_up w1))
    as [(Hwin & ip & [H | (n & e & Hn & H)]) | (Hwin & [H | (e & H)])];
    rewrite H; cbn [fst snd]; rewrite new_events_at_time;
    cbn [at_time clock ip_timer] in Hwin; rewrite Htimer in Hwin.
  - split; [split; [intros _; exact Hwin | reflexivity] | split].
    + intros _. split; [reflexivity | split; [reflexivity|] ].
      exists ip. left. reflexivity.
    + intros Hno. contradiction.
  - split; [split; [intros _; exact Hwin | intros _] | split].
    + clear H. each_position n; reflexivity.
    + intros _. split; [ | split; [reflexivity|] ].
      * clear H. each_position n; reflexivity.
      * exists ip. right. exists n, e. split; [exact Hn | reflexivity].
    + intros Hno. contradiction.
  - split; [split; [discriminate | intros Hin; contradiction] | split].
    + intros Hin. contradiction.
    + intros _. reflexivity.
  - split; [split; [discriminate | intros Hin; contradiction] | split].
    + intros Hin. contradiction.
    + intros _. reflexivity.
Qed.

(** C9.  When volume-up is taken as the address gesture and a call of
    the gesture raises, be it the address lookup, the print or the push to
    the display, the calls made are those before the raising one, nothing
    is called after it, the address has not been pushed to the display,
    and the listener returns normally. *)
Theorem address_gesture_failure_swallowed
        (env : environment) (channel : Z) (w : world)
        (Hwin : clock w - ip_timer w < window)
        (Hfail : completed (new_events w (fst (run env (volume_up_callback channel) w)))
                 = false) :
  snd (run env (volume_up_callback channel) w) = Ok tt
  /\ done is_display_ip_address
       (new_events w (fst (run env (volume_up_callback channel) w))) = false
  /\ exists ip n e,
      (n < 3)%nat
      /\ new_events w (fst (run env (volume_up_callback channel) w))
         = aborted_at (gesture_events ip) n e.
Proof.
  revert Hfail.
  destruct (volume_up_callback_cases env channel w)
    as [(_ & ip & [H | (n & e & Hn & H)]) | (Hno & _)];
    [ | | contradiction ]; rewrite H; cbn [fst snd]; rewrite new_events_extend.
  - discriminate.
  - intros _. split; [reflexivity | split].
    + clear H. each_position n; reflexivity.
    + exists ip, n, e. split; [exact Hn | reflexivity].
Qed.

(** A listener other than volume-down leaves [ip_timer] as it was. *)
Lemma press_keeps_ip_timer (env : environment) (t : Q) (cb : callback) (w : world) :
  is_volume_down_cb cb = false ->
  ip_timer (fst (press env t cb w)) = ip_timer w.
Proof.
  intros Hcb. unfold press. destruct cb; try discriminate; cbn [listener pin_of].
  - destruct (volume_up_callback_cases env 27 (at_time t w))
      as [(_ & ip & [H | (n & e & _ & H)]) | (_ & [H | (e & H)])];
      rewrite H; reflexivity.
  - run_all env; reflexivity.
  - run_all env; reflexivity.
  - run_all env; reflexivity.
Qed.

Lemma presses_keep_ip_timer (env : environment) (l : list (Q * callback)) (w : world) :
  existsb (fun p => is_volume_down_cb (snd p)) l = false ->
  ip_timer (presses env l w) = ip_timer w.
Proof.
  revert w. induction l as [|[t cb] l IH]; intros w; cbn [existsb presses snd].
  - reflexivity.
  - rewrite orb_false_iff. intros [Hcb Hl].
    rewrite (IH _ Hl). now apply press_keeps_ip_timer.
Qed.

Lemma not_in_window_of_epoch (now : Q) : window <= now -> ~ now - 0 < window.
Proof.
  intros Hle Hlt. apply (Qlt_not_le _ _ Hlt).
  unfold Qminus. change (- 0) with 0. now rewrite Qplus_0_r.
Qed.

(** C10.  [ip_timer] is [0] when the process starts, and stays so as
    long as volume-down is not pressed.  At any date from [0.4] seconds
    after the epoch on, a volume-up press that no volume-down press
    precedes is not taken as the address gesture: [volume_up()] is the one
    call it makes. *)
Theorem no_gesture_before_first_volume_down
        (env : environment) (earlier : list (Q * callback)) (start now : Q)
        (Hnone : existsb (fun p => is_volume_down_cb (snd p)) earlier = false)
        (Hclock : window <= now) :
  ip_timer (initial_world start) = 0
  /\ attempted is_address_lookup
       (new_events (presses env earlier (initial_world start))
          (fst (press env now volume_up_cb (presses env earlier (initial_world start)))))
     = false
  /\ map call_of
       (new_events (presses env earlier (initial_world start))
          (fst (press env now volume_up_cb (presses env earlier (initial_world start)))))
     = [volume_up].
Proof.
  split; [reflexivity|].
  pose proof (presses_keep_ip_timer env earlier (initial_world start) Hnone) as Htimer.
  cbn [initial_world ip_timer] in Htimer.
  set (w := presses env earlier (initial_world start)) in *.
  unfold press. cbn [listener pin_of].
  destruct (volume_up_callback_cases env 27 (at_time now w))
    as [(Hwin & _) | (_ & [H | (e & H)])].
  - exfalso. cbn [at_time clock ip_timer] in Hwin. rewrite Htimer in Hwin.
    exact (not_in_window_of_epoch Hclock Hwin).
  - rewrite H. cbn [fst]. rewrite new_events_at_time. split; reflexivity.
  - rewrite H. cbn [fst]. rewrite new_events_at_time. split; reflexivity.
Qed.

(** ** Startup *)

(** Splits on an exception that an [except] clause is inspecting. *)
Ltac split_exn :=
  match goal with
  | |- context [match ?e with
                | SystemExit _ => _
                | KeyboardInterrupt => _
                | Exception _ => _
                end] => is_var e; destruct e; cbn
  end.

Ltac run_all_exn env :=
  cbn; repeat first [ split_exn | run_call env ]; normalise_world.

(** C8.  Whenever [init_radiobot] gets to call [play_radio()], all the
    calls before it have returned, in the order of the source: the radio
    manager was built with the [radio_indice] of the configuration, then
    [set_as_ready] made pin 4 an output, drove it low, slept [0.5]
    seconds, made pin 4 an input again and armed [halt_callback] on it,
    and only then came [play_radio()], the last call of the startup. *)
Theorem ready_before_first_radio
        (env : environment) (config_file : string) (w : world)
        (Hplay : attempted is_play_radio
                   (new_events w (fst (run env (init_radiobot config_file) w))) = true) :
  exists cfg last,
    new_events w (fst (run env (init_radiobot config_file) w))
    = configure_GPIO_events ++ load_events config_file cfg ++ managers_events cfg
      ++ set_as_ready_events ++ [ last ]
    /\ ((last = Returned play_radio tt
         /\ snd (run env (init_radiobot config_file) w) = Ok tt)
        \/ exists e,
            last = Raised play_radio e
            /\ snd (run env (init_radiobot config_file) w) = Raise e).
Proof.
  revert Hplay. run_all_exn env; rewrite new_events_extend; cbn;
    try discriminate; intros _; eexists; eexists; (split; [reflexivity|]).
  - left. split; reflexivity.
  - right. exists e. split; reflexivity.
Qed.

(** C6, as the code has it.  [init_radiobot] configures the GPIO before
    it loads the configuration.  When the loader raises an [Exception]
    and the two messages are printed, the process exits with status 2; by
    then the four button listeners are armed, and nothing else has been
    set up: neither the display, the player, the radio manager nor the
    halt input on pin 4. *)
Theorem invalid_configuration_exits
        (env : environment) (config_file : string) (w : world)
        (Hload : existsb is_Exception
                   (raised_by is_config_load
                      (new_events w (fst (run env (init_radiobot config_file) w))))
                 = true)
        (Hprint : raised_by is_print
                    (new_events w (fst (run env (init_radiobot config_file) w))) = []) :
  snd (run env (init_radiobot config_file) w) = Raise (SystemExit 2)
  /\ armed (new_events w (fst (run env (init_radiobot config_file) w))) = button_listeners
  /\ exists n msg,
      (n < 2)%nat
      /\ new_events w (fst (run env (init_radiobot config_file) w))
         = configure_GPIO_events
           ++ aborted_at (load_events config_file default_config) n (Exception msg)
           ++ [ Returned (print ("Invalid configuration : " ++ msg)) tt;
                Returned (print "Exciting.") tt ].
Proof.
  revert Hload Hprint. run_all_exn env; rewrite new_events_extend; cbn;
    try discriminate; intros _ _; (split; [reflexivity | split; [reflexivity|] ]).
  - exists 1%nat, msg. split; [lia | reflexivity].
  - exists 0%nat, msg. split; [lia | reflexivity].
Qed.

(** C6 as stated fails: with a configuration file that the loader
    rejects, the process exits with status 2 while the four button
    listeners are armed. *)
Lemma listeners_armed_before_config_error :
  snd (run invalid_config (init_radiobot "radiobot.json") w0) = Raise (SystemExit 2)
  /\ armed (trace (fst (run invalid_config (init_radiobot "radiobot.json") w0)))
     = button_listeners
  /\ armed (trace (fst (run invalid_config (init_radiobot "radiobot.json") w0))) <> [].
Proof.
  split; [reflexivity | split; [reflexivity | ] ].
  vm_compute. discriminate.
Qed.

(** ** The theorems at work *)

(** Volume-up [0.3] seconds after volume-down shows the address. *)
Example gap_of_300_ms :
  map call_of
    (new_events (fst (press calm 1700000000 volume_down_cb w0))
       (fst (press calm (1700000000 + (3 # 10)) volume_up_cb
               (fst (press calm 1700000000 volume_down_cb w0)))))
  = [ ifaddresses_addr "wlan0";
      print "IP address : 192.168.1.20";
      displayManager_on_thread (display_ip_address "192.168.1.20") ].
Proof. reflexivity. Qed.

(** Volume-up [0.5] seconds after volume-down turns the volume up. *)
Example gap_of_500_ms :
  map call_of
    (new_events (fst (press calm 1700000000 volume_down_cb w0))
       (fst (press calm (1700000000 + (1 # 2)) volume_up_cb
               (fst (press calm 1700000000 volume_down_cb w0)))))
  = [ volume_up ].
Proof. reflexivity. Qed.

(** The window is open on the right: [0.4] seconds is too late. *)
Example gap_of_400_ms :
  map call_of
    (new_events (fst (press calm 1700000000 volume_down_cb w0))
       (fst (press calm (1700000000 + (2 # 5)) volume_up_cb
               (fst (press calm 1700000000 volume_down_cb w0)))))
  = [ volume_up ].
Proof. reflexivity. Qed.

(** The calls of the two handlers that take turns, as they were logged. *)
Example taking_turns_trace :
  map call_of
    (trace (snd (interleave calm taking_turns
                   [shutdown_on halt_button; shutdown_on termination_signal] w0)))
  = [ print "Shutdown requested !"; print EmptyString;
      print EmptyString; print "Cleaning GPIO";
      print "Cleaning GPIO"; GPIO_cleanup;
      GPIO_cleanup; print "Cleaning LCD";
      print "Cleaning LCD"; displayManager_on_thread terminate;
      displayManager_on_thread terminate; print "Saving current settings to cache";
      print "Saving current settings to cache"; get_current_volume;
      get_current_volume; get_current_radio_indice;
      get_current_radio_indice; save_settings 50 0;
      save_settings 50 0 ].
Proof. reflexivity. Qed.

(** The halt button and [SIGTERM], each handler run to its end. *)
Lemma settings_saved_once_per_trigger_witness :
  forallb finished
    (fst (interleave calm to_the_end
            [shutdown_on halt_button; shutdown_on termination_signal] w0)) = true
  /\ completed
       (new_events w0
          (snd (interleave calm to_the_end
                  [shutdown_on halt_button; shutdown_on termination_signal] w0)))
     = true
  /\ count_done is_save_settings
       (new_events w0
          (snd (interleave calm to_the_end
                  [shutdown_on halt_button; shutdown_on termination_signal] w0)))
     = 2%nat.
Proof.
  split; [reflexivity | split; [reflexivity|] ].
  apply (proj1 (proj2 (settings_saved_once_per_trigger
                         calm to_the_end [halt_button; termination_signal] w0)));
    reflexivity.
Defined.

(** The halt button with every call returning. *)
Lemma only_halt_button_powers_off_witness :
  completed (new_events w0 (fst (run calm (shutdown_on halt_button) w0))) = true
  /\ snd (run calm (shutdown_on halt_button) w0) = Raise (SystemExit 0)
  /\ done is_power_off (new_events w0 (fst (run calm (shutdown_on halt_button) w0)))
     = true.
Proof.
  split; [reflexivity|].
  destruct (proj1 (proj2 (only_halt_button_powers_off calm w0)) halt_button)
    as (Hexit & _ & Hoff); [reflexivity|].
  split; [exact Hexit | exact Hoff].
Defined.

(** Volume-up [0.3] seconds after volume-down. *)
Lemma double_press_gesture_witness :
  window <= 1700000000
  /\ 1700000000 + (3 # 10) - 1700000000 < window
  /\ attempted is_volume_up
       (new_events (fst (press calm 1700000000 volume_down_cb w0))
          (fst (press calm (1700000000 + (3 # 10)) volume_up_cb
                  (fst (press calm 1700000000 volume_down_cb w0)))))
     = false
  /\ snd (press calm (1700000000 + (3 # 10)) volume_up_cb
            (fst (press calm 1700000000 volume_down_cb w0)))
     = Ok tt
  /\ exists ip,
      new_events (fst (press calm 1700000000 volume_down_cb w0))
        (fst (press calm (1700000000 + (3 # 10)) volume_up_cb
                (fst (press calm 1700000000 volume_down_cb w0))))
      = gesture_events ip
      \/ exists n e,
          (n < 3)%nat
          /\ new_events (fst (press calm 1700000000 volume_down_cb w0))
               (fst (press calm (1700000000 + (3 # 10)) volume_up_cb
                       (fst (press calm 1700000000 volume_down_cb w0))))
             = aborted_at (gesture_events ip) n e.
Proof.
  split; [unfold Qle; cbn; lia | split; [reflexivity|] ].
  refine (proj1 (proj2 (proj2 (proj2
            (@double_press_gesture calm w0 1700000000 (1700000000 + (3 # 10)) _))))
            _).
  - unfold Qle; cbn; lia.
  - reflexivity.
Defined.

(** The address lookup fails [0.3] seconds after volume-down. *)
Lemma address_gesture_failure_swallowed_witness :
  clock down_just_pressed - ip_timer down_just_pressed < window
  /\ completed (new_events down_just_pressed
                  (fst (run no_address (volume_up_callback 27) down_just_pressed)))
     = false
  /\ snd (run no_address (volume_up_callback 27) down_just_pressed) = Ok tt.
Proof.
  split; [reflexivity | split; [reflexivity|] ].
  apply (@address_gesture_failure_swallowed no_address 27 down_just_pressed);
    reflexivity.
Defined.

(** Next, then volume-up, then volume-up again, in a fresh process. *)
Lemma no_gesture_before_first_volume_down_witness :
  existsb (fun p => is_volume_down_cb (snd p)) two_presses = false
  /\ window <= 1700000003
  /\ map call_of
       (new_events (presses calm two_presses (initial_world 1700000000))
          (fst (press calm 1700000003 volume_up_cb
                  (presses calm two_presses (initial_world 1700000000)))))
     = [volume_up].
Proof.
  split; [reflexivity | split; [unfold Qle; cbn; lia | ] ].
  apply (@no_gesture_before_first_volume_down calm two_presses 1700000000 1700000003).
  - reflexivity.
  - unfold Qle; cbn; lia.
Defined.

Lemma ready_before_first_radio_witness :
  attempted is_play_radio
    (new_events w0 (fst (run calm (init_radiobot "radiobot.json") w0))) = true
  /\ exists cfg last,
      new_events w0 (fst (run calm (init_radiobot "radiobot.json") w0))
      = configure_GPIO_events ++ load_events "radiobot.json" cfg ++ managers_events cfg
        ++ set_as_ready_events ++ [ last ]
      /\ ((last = Returned play_radio tt
           /\ snd (run calm (init_radiobot "radiobot.json") w0) = Ok tt)
          \/ exists e,
              last = Raised play_radio e
              /\ snd (run calm (init_radiobot "radiobot.json") w0) = Raise e).
Proof.
  split; [reflexivity|].
  apply (@ready_before_first_radio calm "radiobot.json" w0). reflexivity.
Defined.

(** Started without an argument, the script prints two lines and exits
    with status 2; nothing of the hardware has been touched. *)
Example missing_argument :
  run calm (script ["main.py"] 5) w0
  = (extend w0 [ Returned (print "Missing configuration file path") tt;
                 Returned (print "Exiting.") tt ],
     Raise (SystemExit 2)).
Proof. reflexivity. Qed.

Lemma invalid_configuration_exits_witness :
  existsb is_Exception
    (raised_by is_config_load
       (new_events w0 (fst (run invalid_config (init_radiobot "radiobot.json") w0))))
  = true
  /\ raised_by is_print
       (new_events w0 (fst (run invalid_config (init_radiobot "radiobot.json") w0)))
     = []
  /\ snd (run invalid_config (init_radiobot "radiobot.json") w0) = Raise (SystemExit 2).
Proof.
  split; [reflexivity | split; [reflexivity|] ].
  apply (@invalid_configuration_exits invalid_config "radiobot.json" w0); reflexivity.
Defined.

(** ** The script as a whole *)

Lemma attempted_last (P : call -> bool) (pre : list event) (ev : event) :
  attempted P (pre ++ [ev]) = attempted P pre || P (call_of ev).
Proof. rewrite attempted_app. cbn. now rewrite orb_false_r. Qed.

(** Exhibits the last call of a concrete list of events. *)
Ltac last_raised :=
  match goal with
  | |- exists pre c, ?l = pre ++ [Raised c ?e] =>
      exists (removelast l); cbn; eexists; reflexivity
  end.

(** [init_radiobot] returns after the calls of [startup_events], or
    raises as [startup_failure] says. *)
Lemma init_radiobot_cases (env : environment) (config_file : string) (w : world) :
  (exists cfg,
      run env (init_radiobot config_file) w
      = (extend w (startup_events config_file cfg), Ok tt))
  \/ exists evs e,
      run env (init_radiobot config_file) w = (extend w evs, Raise e)
      /\ startup_failure evs e.
Proof.
  run_all_exn env;
    first [ left; eexists; reflexivity
          | right; eexists; eexists; split; [reflexivity|];
            unfold startup_failure; cbn;
            repeat (split; [reflexivity|]);
            first [ left; split; reflexivity | right; last_raised ] ].
Qed.

(** The foreground loop: still going, left by an exception of its own
    calls, or interrupted and then shut down. *)
Lemma foreground_loop_cases (env : environment) (fuel : nat) (w : world) :
  run env (foreground_loop fuel) w = (extend w (iterations fuel), Ok out_of_fuel)
  \/ exists n k e0,
      (n < fuel)%nat /\ (k < 3)%nat
      /\ ((is_KeyboardInterrupt e0 = false
           /\ run env (foreground_loop fuel) w
              = (extend w (iterations n ++ aborted_at iteration_events k e0), Raise e0))
          \/ (e0 = KeyboardInterrupt
              /\ exists vol indice,
                  run env (foreground_loop fuel) w
                  = (extend w (iterations n ++ aborted_at iteration_events k e0
                               ++ shutdown_events vol indice),
                     Raise (SystemExit 0))
                  \/ exists m e,
                      (m < 10)%nat
                      /\ run env (foreground_loop fuel) w
                         = (extend w (iterations n ++ aborted_at iteration_events k e0
                                      ++ aborted_at (shutdown_events vol indice) m e),
                            Raise e))).
Proof.
  unfold foreground_loop, try_except_KeyboardInterrupt. rewrite run_catch.
  destruct (while_True_cases env fuel w) as [H | (n & k & e0 & Hn & Hk & H)]; rewrite H.
  - left. reflexivity.
  - right. exists n, k, e0. split; [exact Hn | split; [exact Hk|] ].
    destruct e0 as [code| |msg].
    + left. split; reflexivity.
    + right. split; [reflexivity|]. rewrite run_bind.
      destruct (clean_exit_cases env
                  (extend w (iterations n
                             ++ aborted_at iteration_events k KeyboardInterrupt)))
        as (vol & indice & [H' | (m & e & Hm & H')]);
        rewrite H', extend_extend, <- app_assoc; exists vol, indice.
      * left. reflexivity.
      * right. exists m, e. split; [exact Hm | reflexivity].
    + left. split; reflexivity.
Qed.

Lemma run_invoke_then (env : environment) {B : Type} (c : call)
      (k : answer c -> prog B) (w : world) :
  run env (bind (invoke c) k) w
  = match env (trace w) c with
    | Ok a => run env (k a) (log (Returned c a) w)
    | Raise e => (log (Raised c e) w, Raise e)
    end.
Proof.
  rewrite run_bind, run_invoke. destruct (env (trace w) c); reflexivity.
Qed.

(** Every run of the script is one of the lives of [script_run]. *)
Lemma script_run_complete (env : environment) (argv : list string) (fuel : nat)
      (w : world) :
  exists evs r,
    run env (script argv fuel) w = (extend w evs, r) /\ script_run argv fuel evs r.
Proof.
  destruct argv as [|arg0 [|config_file argv]]; cbn [script].
  - run_all env; eexists; eexists; (split; [reflexivity|]).
    + apply no_argument. cbn. lia.
    + apply (@no_argument_aborted _ _ 1%nat); cbn; lia.
    + apply (@no_argument_aborted _ _ 0%nat); cbn; lia.
  - run_all env; eexists; eexists; (split; [reflexivity|]).
    + apply no_argument. cbn. lia.
    + apply (@no_argument_aborted _ _ 1%nat); cbn; lia.
    + apply (@no_argument_aborted _ _ 0%nat); cbn; lia.
  - unfold main.
    rewrite run_invoke_then. destruct (env (trace w) _) as [[]|e];
      [ | eexists; eexists; split; [reflexivity|];
          apply (@prologue_aborted _ _ config_file 0%nat); [reflexivity | lia] ].
    rewrite run_invoke_then. destruct (env _ _) as [[]|e];
      [ | normalise_world; eexists; eexists; split; [reflexivity|];
          apply (@prologue_aborted _ _ config_file 1%nat); [reflexivity | lia] ].
    rewrite run_invoke_then. destruct (env _ _) as [[]|e];
      [ | normalise_world; eexists; eexists; split; [reflexivity|];
          apply (@prologue_aborted _ _ config_file 2%nat); [reflexivity | lia] ].
    rewrite run_invoke_then. destruct (env _ _) as [[]|e];
      [ | normalise_world; eexists; eexists; split; [reflexivity|];
          apply (@prologue_aborted _ _ config_file 3%nat); [reflexivity | lia] ].
    normalise_world. fold prologue_events.
    rewrite run_bind.
    destruct (init_radiobot_cases env config_file (extend w prologue_events))
      as [(cfg & H) | (evs & e & H & Hfail)]; rewrite H, extend_extend.
    + destruct (foreground_loop_cases env fuel
                  (extend w (prologue_events ++ startup_events config_file cfg)))
        as [H' | (n & k & e0 & Hn & Hk
                  & [(He0 & H') | (He0 & vol & indice & [H' | (m & e & Hm & H')])])];
        rewrite H', extend_extend, <- app_assoc; eexists; eexists;
        (split; [reflexivity|]).
      * now apply still_running.
      * now apply loop_crashed.
      * subst e0. now apply shut_down.
      * subst e0. now apply shut_down_aborted.
    + eexists; eexists; split; [reflexivity|].
      now apply (@startup_failed _ _ config_file).
Qed.

Lemma done_app (P : call -> bool) (evs evs' : list event) :
  done P (evs ++ evs') = done P evs || done P evs'.
Proof. apply existsb_app. Qed.

Lemma raised_by_app (P : call -> bool) (evs evs' : list event) :
  raised_by P (evs ++ evs') = raised_by P evs ++ raised_by P evs'.
Proof. apply flat_map_app. Qed.

Lemma exists_raised_app (Q : exn -> bool) (P : call -> bool) (evs evs' : list event) :
  existsb Q (raised_by P (evs ++ evs'))
  = existsb Q (raised_by P evs) || existsb Q (raised_by P evs').
Proof. now rewrite raised_by_app, existsb_app. Qed.

Lemma raised_by_iterations (P : call -> bool) (n : nat) :
  raised_by P (iterations n) = [].
Proof.
  induction n as [|n IH]; [reflexivity|].
  cbn [iterations]. now rewrite raised_by_app, IH.
Qed.

Lemma done_iterations (P : call -> bool) (n : nat) :
  done P iteration_events = false -> done P (iterations n) = false.
Proof.
  intros H. induction n as [|n IH]; [reflexivity|].
  cbn [iterations]. now rewrite done_app, H, IH.
Qed.

(** Splits a hypothesis [... || ... = false] on a trace in pieces. *)
Ltac split_false H :=
  repeat rewrite exists_raised_app in H;
  repeat rewrite attempted_app in H;
  repeat (apply orb_false_iff in H;
          let H' := fresh H in destruct H as [H' H]).

(** X1.  Started with no argument after its own name, the script makes
    no call but [print]; when its two prints return it exits with status
    2, having printed that the path of the configuration file is
    missing. *)
Theorem script_without_argument
        (env : environment) (argv : list string) (fuel : nat) (w : world)
        (Hargv : (length argv <= 1)%nat) :
  attempted (fun c => negb (is_print c))
    (new_events w (fst (run env (script argv fuel) w))) = false
  /\ (completed (new_events w (fst (run env (script argv fuel) w))) = true ->
      new_events w (fst (run env (script argv fuel) w)) = usage_events
      /\ snd (run env (script argv fuel) w) = Raise (SystemExit 2)).
Proof.
  destruct argv as [|arg0 [|config_file argv]]; [ | | cbn in Hargv; lia ];
    run_all env; rewrite new_events_extend; split; try reflexivity;
    try discriminate; intros _; split; reflexivity.
Qed.

(** X2.  The script never ends by [main] returning.  When the main
    thread is still in the loop after [fuel] turns, the calls it has made
    are, in this order: the three lines of the banner, the registration
    of [sigterm_callback], the calls of [init_radiobot], all returned, and
    [fuel] turns of the loop. *)
Theorem script_keeps_running
        (env : environment) (argv : list string) (fuel : nat) (w : world) :
  snd (run env (script argv fuel) w) <> Ok fell_through
  /\ (snd (run env (script argv fuel) w) = Ok out_of_fuel ->
      exists config_file cfg,
        nth_error argv 1 = Some config_file
        /\ new_events w (fst (run env (script argv fuel) w))
           = prologue_events ++ startup_events config_file cfg ++ iterations fuel).
Proof.
  destruct (script_run_complete env argv fuel w) as (evs & r & Hrun & Hlife).
  rewrite Hrun. cbn [fst snd]. rewrite new_events_extend.
  destruct Hlife; split; try discriminate.
  intros _. exists config_file, cfg. split; [assumption | reflexivity].
Qed.

(** A run of the script in which no [SIGTERM] is handled saves the
    settings only after the first radio was started and the loop was
    interrupted from the keyboard. *)
Lemma undisturbed_run_saves_after_start
        (env : environment) (argv : list string) (fuel : nat) (w : world)
        (Hsave : attempted is_save_settings
                   (new_events w (fst (run env (script argv fuel) w))) = true) :
  done is_play_radio (new_events w (fst (run env (script argv fuel) w))) = true
  /\ existsb is_KeyboardInterrupt
       (raised_by is_loop_call (new_events w (fst (run env (script argv fuel) w))))
     = true.
Proof.
  revert Hsave.
  destruct (script_run_complete env argv fuel w) as (evs & r & Hrun & Hlife).
  rewrite Hrun. cbn [fst]. rewrite new_events_extend.
  assert (Hit : forall n, attempted is_save_settings (iterations n) = false)
    by (intros n; now apply iterations_attempted).
  destruct Hlife as [Hargv|n e Hargv Hn|f n e Hf Hn|f evs e Hf Hfail|f cfg Hf
                     |f cfg n k e Hf Hn Hk He|f cfg n k vol indice Hf Hn Hk
                     |f cfg n k vol indice m e Hf Hn Hk Hm];
    rewrite ?attempted_app, ?Hit.
  - discriminate.
  - each_position n; discriminate.
  - each_position n; discriminate.
  - destruct Hfail as (Hnot & _). rewrite Hnot. discriminate.
  - discriminate.
  - clear - Hk. each_position k; discriminate.
  - intros _. rewrite !done_app, !exists_raised_app, raised_by_iterations.
    split; [reflexivity|]. clear - Hk. each_position k; reflexivity.
  - intros _. rewrite !done_app, !exists_raised_app, raised_by_iterations.
    split; [reflexivity|]. clear - Hk. each_position k; reflexivity.
Qed.

(** X5.  Whenever the script touches the GPIO, the banner has been
    printed and [sigterm_callback] has been registered for [SIGTERM]
    before. *)
Theorem sigterm_handler_before_gpio
        (env : environment) (argv : list string) (fuel : nat) (w : world)
        (Hgpio : attempted is_GPIO
                   (new_events w (fst (run env (script argv fuel) w))) = true) :
  exists rest,
    new_events w (fst (run env (script argv fuel) w)) = prologue_events ++ rest.
Proof.
  revert Hgpio.
  destruct (script_run_complete env argv fuel w) as (evs & r & Hrun & Hlife).
  rewrite Hrun. cbn [fst]. rewrite new_events_extend.
  destruct Hlife as [Hargv|n e Hargv Hn|f n e Hf Hn|f evs e Hf Hfail|f cfg Hf
                     |f cfg n k e Hf Hn Hk He|f cfg n k vol indice Hf Hn Hk
                     |f cfg n k vol indice m e Hf Hn Hk Hm];
    try (intros _; eexists; reflexivity).
  - discriminate.
  - each_position n; discriminate.
  - each_position n; discriminate.
Qed.

(** ** More on the buttons *)

(** X6.  The double-press detector only knows the last volume-down.
    The stamps are taken at least [0.4] seconds after the epoch.
    Whatever buttons other than volume-down are pressed after a
    volume-down, and whenever, the next volume-up is taken as the address
    gesture if and only if it comes less than [0.4] seconds after that
    volume-down, and calls [volume_up()] if and only if it does not.  So
    every volume-up within the window, not only the first one, looks the
    address up, prints it and hands it to the display, stopping at the
    first of these calls that raises. *)
Theorem detector_ignores_other_buttons
        (env : environment) (w : world) (t_down t_up : Q)
        (between : list (Q * callback))
        (Hepoch : window <= t_down)
        (Hbetween : existsb (fun p => is_volume_down_cb (snd p)) between = false) :
  (attempted is_address_lookup
     (new_events (presses env between (fst (press env t_down volume_down_cb w)))
        (fst (press env t_up volume_up_cb
                (presses env between (fst (press env t_down volume_down_cb w))))))
   = true
   <-> t_up - t_down < window)
  /\ (attempted is_volume_up
        (new_events (presses env between (fst (press env t_down volume_down_cb w)))
           (fst (press env t_up volume_up_cb
                   (presses env between (fst (press env t_down volume_down_cb w))))))
      = true
      <-> ~ t_up - t_down < window)
  /\ (t_up - t_down < window ->
      exists ip,
        new_events (presses env between (fst (press env t_down volume_down_cb w)))
          (fst (press env t_up volume_up_cb
                  (presses env between (fst (press env t_down volume_down_cb w)))))
        = gesture_events ip
        \/ exists n e,
            (n < 3)%nat
            /\ new_events
                 (presses env between (fst (press env t_down volume_down_cb w)))
                 (fst (press env t_up volume_up_cb
                         (presses env between
                            (fst (press env t_down volume_down_cb w)))))
               = aborted_at (gesture_events ip) n e).
Proof.
  pose proof (presses_keep_ip_timer env between
                (fst (press env t_down volume_down_cb w)) Hbetween) as Htimer.
  destruct (press_volume_down env t_down w) as (Hdown & _).
  rewrite Hdown in Htimer.
  set (w2 := presses env between (fst (press env t_down volume_down_cb w))) in *.
  unfold press. cbn [listener pin_of].
  destruct (volume_up_callback_cases env 27 (at_time t_up w2))
    as [(Hwin & ip & [H | (n & e & Hn & H)]) | (Hwin & [H | (e & H)])];
    rewrite H; cbn [fst]; rewrite new_events_at_time;
    cbn [at_time clock ip_timer] in Hwin; rewrite Htimer in Hwin.
  - split; [split; [intros _; exact Hwin | reflexivity] | split].
    + split; [discriminate | intros Hno; contradiction].
    + intros _. exists ip. left. reflexivity.
  - split; [split; [intros _; exact Hwin | intros _] | split].
    + clear H. each_position n; reflexivity.
    + split; [ | intros Hno; contradiction].
      clear H. each_position n; discriminate.
    + intros _. exists ip. right. exists n, e. split; [exact Hn | reflexivity].
  - split; [split; [discriminate | intros Hin; contradiction] | split].
    + split; [intros _; exact Hwin | reflexivity].
    + intros Hin. contradiction.
  - split; [split; [discriminate | intros Hin; contradiction] | split].
    + split; [intros _; exact Hwin | reflexivity].
    + intros Hin. contradiction.
Qed.

(** X7.  Outside the address gesture a button listener makes exactly one
    call, the one the button stands for, and swallows nothing: the
    listener returns when the call returns, and raises what the call
    raises. *)
Theorem listener_routes_one_call
        (env : environment) (w : world) (cb : callback) (channel : Z) (c : call)
        (Hroute : route cb = Some c)
        (Hwin : cb = volume_up_cb -> ~ clock w - ip_timer w < window) :
  map call_of (new_events w (fst (run env (listener cb channel) w))) = [c]
  /\ ((completed (new_events w (fst (run env (listener cb channel) w))) = true
       /\ snd (run env (listener cb channel) w) = Ok tt)
      \/ exists e,
          raised_by any_call (new_events w (fst (run env (listener cb channel) w))) = [e]
          /\ snd (run env (listener cb channel) w) = Raise e).
Proof.
  destruct cb; cbn in Hroute; try discriminate; injection Hroute as <-;
    cbn [listener].
  - destruct (volume_up_callback_cases env channel w)
      as [(Hin & _) | (_ & [H | (e & H)])];
      [ exfalso; exact (Hwin eq_refl Hin) | | ];
      rewrite H; cbn [fst snd]; rewrite new_events_extend;
      (split; [reflexivity|]).
    + left. split; reflexivity.
    + right. exists e. split; reflexivity.
  - destruct (volume_down_callback_cases env channel w) as [H | (e & H)];
      rewrite H; cbn [fst snd]; rewrite new_events_store;
      (split; [reflexivity|]).
    + left. split; reflexivity.
    + right. exists e. split; reflexivity.
  - run_all env; rewrite new_events_extend; (split; [reflexivity|]).
    + left. split; reflexivity.
    + right. exists e. split; reflexivity.
  - run_all env; rewrite new_events_extend; (split; [reflexivity|]).
    + left. split; reflexivity.
    + right. exists e. split; reflexivity.
Qed.

(** ** The two copies of the shutdown sequence *)

(** X8.  [clean_exit_and_shutdown] is [clean_exit] with one more call.
    From the same state and with the same answers, the two make the same
    calls as long as [clean_exit] has calls to make; when a call raises,
    both stop there with the same exception; and when all the calls of
    [clean_exit] return, [clean_exit_and_shutdown] makes just one more,
    [shutdown -h now]. *)
Theorem shutdown_copies_agree (env : environment) (w : world) :
  (completed (new_events w (fst (run env clean_exit w))) = false
   /\ run env clean_exit_and_shutdown w = run env clean_exit w)
  \/ (completed (new_events w (fst (run env clean_exit w))) = true
      /\ exists last,
          new_events w (fst (run env clean_exit_and_shutdown w))
          = new_events w (fst (run env clean_exit w)) ++ [last]
          /\ call_of last = subprocess_call ["sudo"; "shutdown"; "-h"; "now"]).
Proof.
  run_all env; rewrite ?new_events_extend;
    first [ left; split; reflexivity
          | right; split; [reflexivity|]; eexists; split; reflexivity ].
Qed.

(** ** More on the startup *)

(** X9.  [except Exception] does not catch a [KeyboardInterrupt] or a
    [SystemExit].  When the loading of the configuration raises one of
    them, [init_radiobot] prints nothing, does not exit with status 2,
    and raises it to its caller, the GPIO being configured. *)
Theorem interrupt_while_loading
        (env : environment) (config_file : string) (w : world)
        (Hload : existsb (fun e => negb (is_Exception e))
                   (raised_by is_config_load
                      (new_events w (fst (run env (init_radiobot config_file) w))))
                 = true) :
  exists n e,
    (n < 2)%nat
    /\ is_Exception e = false
    /\ new_events w (fst (run env (init_radiobot config_file) w))
       = configure_GPIO_events ++ aborted_at (load_events config_file default_config) n e
    /\ snd (run env (init_radiobot config_file) w) = Raise e.
Proof.
  revert Hload. run_all_exn env; rewrite new_events_extend; cbn;
    try discriminate; intros _.
  all: first [ exists 1%nat; eexists; repeat split; [lia | reflexivity]
             | exists 0%nat; eexists; repeat split; [lia | reflexivity] ].
Qed.

(** X10.  A call that raises after the configuration was loaded (the
    serial port, a manager, the ready pin, the first radio) is not turned
    into an exit: [init_radiobot] raises what the call raised, every call
    before it having returned.  The GPIO is not released on the way out,
    so the four button listeners stay armed. *)
Theorem startup_error_propagates
        (env : environment) (config_file : string) (w : world)
        (Hafter : attempted is_after_config
                    (new_events w (fst (run env (init_radiobot config_file) w))) = true)
        (Hfail : completed
                   (new_events w (fst (run env (init_radiobot config_file) w))) = false) :
  exists pre c e,
    new_events w (fst (run env (init_radiobot config_file) w)) = pre ++ [Raised c e]
    /\ completed pre = true
    /\ is_after_config c = true
    /\ snd (run env (init_radiobot config_file) w) = Raise e
    /\ attempted is_GPIO_cleanup
         (new_events w (fst (run env (init_radiobot config_file) w))) = false
    /\ firstn 4 (armed (new_events w (fst (run env (init_radiobot config_file) w))))
       = button_listeners.
Proof.
  revert Hafter Hfail. run_all_exn env; rewrite new_events_extend; cbn;
    try discriminate; intros _ _.
  all: match goal with
       | |- exists pre c e, ?l = _ /\ _ =>
           exists (removelast l); cbn; eexists; eexists; repeat split; reflexivity
       end.
Qed.

(** X11.  The buttons are live before anything they act on exists: by
    the time [init_radiobot] makes its first call outside the GPIO, the
    nine calls of [configure_GPIO] have returned and the four button
    listeners are armed. *)
Theorem buttons_armed_first
        (env : environment) (config_file : string) (w : world)
        (Hbeyond : attempted (fun c => negb (is_GPIO c))
                     (new_events w (fst (run env (init_radiobot config_file) w)))
                   = true) :
  firstn 9 (new_events w (fst (run env (init_radiobot config_file) w)))
  = configure_GPIO_events
  /\ armed (firstn 9 (new_events w (fst (run env (init_radiobot config_file) w))))
     = button_listeners.
Proof.
  revert Hbeyond. run_all_exn env; rewrite new_events_extend; cbn;
    try discriminate; intros _; split; reflexivity.
Qed.

(** X12.  An exception of a call of the loop that is not
    [KeyboardInterrupt] ends the loop without the shutdown sequence: it
    leaves [main] as it is, the GPIO is not released and the settings are
    not saved. *)
Theorem loop_error_skips_shutdown
        (env : environment) (fuel : nat) (w : world)
        (Herr : existsb (fun e => negb (is_KeyboardInterrupt e))
                  (raised_by is_loop_call
                     (new_events w (fst (run env (foreground_loop fuel) w)))) = true) :
  exists e,
    snd (run env (foreground_loop fuel) w) = Raise e
    /\ is_KeyboardInterrupt e = false
    /\ attempted is_GPIO_cleanup
         (new_events w (fst (run env (foreground_loop fuel) w))) = false
    /\ attempted is_save_settings
         (new_events w (fst (run env (foreground_loop fuel) w))) = false.
Proof.
  revert Herr.
  destruct (foreground_loop_cases env fuel w)
    as [H | (n & k & e0 & Hn & Hk
             & [(He0 & H) | (He0 & vol & indice & [H | (m & e & Hm & H)])])];
    rewrite H; cbn [fst snd]; rewrite new_events_extend;
    rewrite ?exists_raised_app, ?raised_by_iterations; cbn [existsb orb].
  - discriminate.
  - intros _. exists e0. split; [reflexivity | split; [exact He0|] ].
    rewrite !attempted_app.
    rewrite (@iterations_attempted is_GPIO_cleanup n eq_refl),
      (@iterations_attempted is_save_settings n eq_refl).
    clear - Hk. each_position k; split; reflexivity.
  - subst e0. intros Herr. exfalso. revert Herr. clear - Hk.
    each_position k; discriminate.
  - subst e0. intros Herr. exfalso. revert Herr. clear - Hk Hm.
    each_position k; each_position m; discriminate.
Qed.

(** ** The further theorems at work *)

Lemma script_without_argument_witness :
  (length ["main.py"] <= 1)%nat
  /\ attempted (fun c => negb (is_print c))
       (new_events w0 (fst (run calm (script ["main.py"] 5) w0))) = false.
Proof.
  split; [cbn; lia|].
  apply (@script_without_argument calm ["main.py"] 5%nat w0). cbn; lia.
Defined.

(** Three turns of the loop without an interruption. *)
Lemma script_keeps_running_witness :
  snd (run calm (script command_line 3) w0) = Ok out_of_fuel
  /\ exists config_file cfg,
      nth_error command_line 1 = Some config_file
      /\ new_events w0 (fst (run calm (script command_line 3) w0))
         = prologue_events ++ startup_events config_file cfg ++ iterations 3.
Proof.
  split; [reflexivity|].
  apply (proj2 (script_keeps_running calm command_line 3 w0)). reflexivity.
Defined.

(** The configuration is rejected: the GPIO was touched all the same. *)
Lemma sigterm_handler_before_gpio_witness :
  attempted is_GPIO
    (new_events w0 (fst (run invalid_config (script command_line 3) w0))) = true
  /\ exists rest,
      new_events w0 (fst (run invalid_config (script command_line 3) w0))
      = prologue_events ++ rest.
Proof.
  split; [reflexivity|].
  apply (@sigterm_handler_before_gpio invalid_config command_line 3%nat w0).
  reflexivity.
Defined.

(** Volume-down, then three other buttons, then volume-up [0.3] seconds
    after the volume-down. *)
Lemma detector_ignores_other_buttons_witness :
  window <= 1700000000
  /\ existsb (fun p => is_volume_down_cb (snd p)) three_presses = false
  /\ 1700000000 + (3 # 10) - 1700000000 < window
  /\ exists ip,
      new_events
        (presses calm three_presses (fst (press calm 1700000000 volume_down_cb w0)))
        (fst (press calm (1700000000 + (3 # 10)) volume_up_cb
                (presses calm three_presses
                   (fst (press calm 1700000000 volume_down_cb w0)))))
      = gesture_events ip
      \/ exists n e,
          (n < 3)%nat
          /\ new_events
               (presses calm three_presses
                  (fst (press calm 1700000000 volume_down_cb w0)))
               (fst (press calm (1700000000 + (3 # 10)) volume_up_cb
                       (presses calm three_presses
                          (fst (press calm 1700000000 volume_down_cb w0)))))
             = aborted_at (gesture_events ip) n e.
Proof.
  split; [unfold Qle; cbn; lia | split; [reflexivity | split; [reflexivity|] ] ].
  refine (proj2 (proj2 (@detector_ignores_other_buttons calm w0 1700000000
                          (1700000000 + (3 # 10)) three_presses _ _)) _).
  - unfold Qle; cbn; lia.
  - reflexivity.
  - reflexivity.
Defined.

(** The next button while the player does not answer. *)
Lemma listener_routes_one_call_witness :
  route next_radio_cb = Some next
  /\ (next_radio_cb = volume_up_cb -> ~ clock w0 - ip_timer w0 < window)
  /\ map call_of (new_events w0 (fst (run next_fails (listener next_radio_cb 24) w0)))
     = [next].
Proof.
  split; [reflexivity | split; [discriminate|] ].
  apply (@listener_routes_one_call next_fails w0 next_radio_cb 24%Z next).
  - reflexivity.
  - discriminate.
Defined.

Lemma interrupt_while_loading_witness :
  existsb (fun e => negb (is_Exception e))
    (raised_by is_config_load
       (new_events w0 (fst (run ctrl_c_while_parsing (init_radiobot "radiobot.json") w0))))
  = true
  /\ exists n e,
      (n < 2)%nat
      /\ is_Exception e = false
      /\ new_events w0 (fst (run ctrl_c_while_parsing (init_radiobot "radiobot.json") w0))
         = configure_GPIO_events
           ++ aborted_at (load_events "radiobot.json" default_config) n e
      /\ snd (run ctrl_c_while_parsing (init_radiobot "radiobot.json") w0) = Raise e.
Proof.
  split; [reflexivity|].
  apply (@interrupt_while_loading ctrl_c_while_parsing "radiobot.json" w0).
  reflexivity.
Defined.

Lemma startup_error_propagates_witness :
  attempted is_after_config
    (new_events w0 (fst (run no_serial_port (init_radiobot "radiobot.json") w0))) = true
  /\ completed
       (new_events w0 (fst (run no_serial_port (init_radiobot "radiobot.json") w0)))
     = false
  /\ exists pre c e,
      new_events w0 (fst (run no_serial_port (init_radiobot "radiobot.json") w0))
      = pre ++ [Raised c e]
      /\ completed pre = true
      /\ is_after_config c = true
      /\ snd (run no_serial_port (init_radiobot "radiobot.json") w0) = Raise e
      /\ attempted is_GPIO_cleanup
           (new_events w0 (fst (run no_serial_port (init_radiobot "radiobot.json") w0)))
         = false
      /\ firstn 4
           (armed (new_events w0
                     (fst (run no_serial_port (init_radiobot "radiobot.json") w0))))
         = button_listeners.
Proof.
  split; [reflexivity | split; [reflexivity|] ].
  apply (@startup_error_propagates no_serial_port "radiobot.json" w0); reflexivity.
Defined.

Lemma buttons_armed_first_witness :
  attempted (fun c => negb (is_GPIO c))
    (new_events w0 (fst (run invalid_config (init_radiobot "radiobot.json") w0))) = true
  /\ armed (firstn 9 (new_events w0
                        (fst (run invalid_config (init_radiobot "radiobot.json") w0))))
     = button_listeners.
Proof.
  split; [reflexivity|].
  apply (@buttons_armed_first invalid_config "radiobot.json" w0). reflexivity.
Defined.

(** The stream is lost in the eleventh turn of the loop. *)
Lemma loop_error_skips_shutdown_witness :
  existsb (fun e => negb (is_KeyboardInterrupt e))
    (raised_by is_loop_call
       (new_events w0 (fst (run stream_lost (foreground_loop 20) w0)))) = true
  /\ exists e,
      snd (run stream_lost (foreground_loop 20) w0) = Raise e
      /\ is_KeyboardInterrupt e = false
      /\ attempted is_GPIO_cleanup
           (new_events w0 (fst (run stream_lost (foreground_loop 20) w0))) = false
      /\ attempted is_save_settings
           (new_events w0 (fst (run stream_lost (foreground_loop 20) w0))) = false.
Proof.
  split; [reflexivity|].
  apply (@loop_error_skips_shutdown stream_lost 20%nat w0). reflexivity.
Defined.

(** ** The main thread and [SIGTERM] *)

Section MainThread.
Variable env : environment.
Variable sig : signals.

Lemma run_main_thread_bind {A B : Type} (p : prog A) (f : A -> prog B) (w : world) :
  run_main_thread env sig (bind p f) w =
  match run_main_thread env sig p w with
  | (w', Ok a) => run_main_thread env sig (f a) w'
  | (w', Raise e) => (w', Raise e)
  end.
Proof.
  revert w. induction p as [a|e|c k IH|k IH|k IH|t k IH]; intros w;
    cbn [run_main_thread bind Monad_prog prog_bind catch MonadExc_prog prog_catch
           fst snd].
  - reflexivity.
  - reflexivity.
  - destruct (exec env c w) as [w1 r].
    destruct (sigterm_handled sig (trace w1)).
    + destruct (run env (sigterm_callback 15 tt) w1) as [w2 [u|e]]; apply IH.
    + apply IH.
  - apply IH.
  - apply IH.
  - apply IH.
Qed.

Lemma run_main_thread_catch {A : Type} (p : prog A) (h : exn -> prog A) (w : world) :
  run_main_thread env sig (catch p h) w =
  match run_main_thread env sig p w with
  | (w', Ok a) => (w', Ok a)
  | (w', Raise e) => run_main_thread env sig (h e) w'
  end.
Proof.
  revert w. induction p as [a|e|c k IH|k IH|k IH|t k IH]; intros w;
    cbn [run_main_thread bind Monad_prog prog_bind catch MonadExc_prog prog_catch
           fst snd].
  - reflexivity.
  - reflexivity.
  - destruct (exec env c w) as [w1 r].
    destruct (sigterm_handled sig (trace w1)).
    + destruct (run env (sigterm_callback 15 tt) w1) as [w2 [u|e]]; apply IH.
    + apply IH.
  - apply IH.
  - apply IH.
  - apply IH.
Qed.

Lemma exec_logs (c : call) (w : world) :
  exists ev, call_of ev = c /\ fst (exec env c w) = log ev w.
Proof.
  unfold exec. destruct (env (trace w) c) as [a|e];
    [exists (Returned c a) | exists (Raised c e)]; split; reflexivity.
Qed.

(** The main thread only ever appends to the trace. *)
Lemma run_main_thread_extends {A : Type} (p : prog A) (w : world) :
  exists evs, trace (fst (run_main_thread env sig p w)) = trace w ++ evs.
Proof.
  revert w. induction p as [a|e|c k IH|k IH|k IH|t k IH]; intros w;
    cbn [run_main_thread bind Monad_prog prog_bind catch MonadExc_prog prog_catch
           fst snd].
  - exists []. now rewrite app_nil_r.
  - exists []. now rewrite app_nil_r.
  - destruct (exec_logs c w) as (ev & _ & Hev).
    destruct (exec env c w) as [w1 r]. cbn [fst] in Hev. subst w1.
    destruct (sigterm_handled sig (trace (log ev w))).
    + destruct (run_extends env (sigterm_callback 15 tt) (log ev w)) as [hevs Hh].
      destruct (run env (sigterm_callback 15 tt) (log ev w)) as [w2 [u|e]]; cbn [fst] in Hh.
      * destruct (IH r w2) as [evs H]. exists (ev :: hevs ++ evs).
        rewrite H, Hh. cbn. now rewrite <- !app_assoc.
      * destruct (IH (Raise e) w2) as [evs H]. exists (ev :: hevs ++ evs).
        rewrite H, Hh. cbn. now rewrite <- !app_assoc.
    + destruct (IH r (log ev w)) as [evs H]. exists (ev :: evs).
      rewrite H. cbn. now rewrite <- app_assoc.
  - apply IH.
  - apply IH.
  - apply (IH (store_ip_timer t w)).
Qed.

(** Either no [SIGTERM] was handled, and the run is the plain one, or one
    was. *)
Lemma run_main_thread_or_run {A : Type} (p : prog A) (w : world) :
  run_main_thread env sig p w = run env p w
  \/ delivered sig (trace w) (new_events w (fst (run_main_thread env sig p w))).
Proof.
  revert w. induction p as [a|e|c k IH|k IH|k IH|t k IH]; intros w;
    cbn [run_main_thread run fst snd].
  - left. reflexivity.
  - left. reflexivity.
  - destruct (exec_logs c w) as (ev & _ & Hev).
    destruct (exec env c w) as [w1 r]. cbn [fst] in Hev. subst w1.
    destruct (sigterm_handled sig (trace (log ev w))) eqn:Hd.
    + right.
      assert (Hex : forall (r' : result (answer c)) w2,
                 (exists hevs, trace w2 = trace (log ev w) ++ hevs) ->
                 delivered sig (trace w)
                   (new_events w (fst (run_main_thread env sig (k r') w2)))).
      { intros r' w2 [hevs Hh].
        destruct (run_main_thread_extends (k r') w2) as [evs H].
        exists [ev], (hevs ++ evs). split; [ | exact Hd].
        apply new_events_app. rewrite H, Hh. cbn. now rewrite <- !app_assoc. }
      pose proof (run_extends env (sigterm_callback 15 tt) (log ev w)) as Hh.
      destruct (run env (sigterm_callback 15 tt) (log ev w)) as [w2 [u|e]]; cbn [fst] in Hh;
        now apply Hex.
    + destruct (IH r (log ev w)) as [H | (pre & post & Hnew & Hsig)].
      * left. exact H.
      * right. exists (ev :: pre), post.
        destruct (run_main_thread_extends (k r) (log ev w)) as [evs H].
        rewrite (@new_events_app _ _ _ H) in Hnew.
        cbn [log trace] in Hsig. rewrite <- app_assoc in Hsig.
        split; [ | exact Hsig].
        apply new_events_app. rewrite H, Hnew. cbn. now rewrite <- !app_assoc.
  - apply IH.
  - apply IH.
  - destruct (IH (store_ip_timer t w)) as [H | H]; [left | right]; exact H.
Qed.

(** When [SIGTERM] never arrives, the main thread runs as [run] says. *)
Lemma run_main_thread_undisturbed {A : Type} (p : prog A) (w : world) :
  (forall h, sig h = false) -> run_main_thread env sig p w = run env p w.
Proof.
  intros Hnever.
  destruct (run_main_thread_or_run p w) as [H | (pre & post & _ & Hsig)];
    [exact H | ].
  unfold sigterm_handled in Hsig. rewrite Hnever, andb_false_r in Hsig.
  discriminate.
Qed.

End MainThread.

(** One call of the main thread: it returns, it raises, or a [SIGTERM]
    is handled after it and the handler raises. *)
Lemma run_main_thread_invoke (env : environment) (sig : signals) (c : call) (w : world) :
  (exists a,
      run_main_thread env sig (invoke c) w = (log (Returned c a) w, Ok a))
  \/ (exists e,
         run_main_thread env sig (invoke c) w = (log (Raised c e) w, Raise e))
  \/ (exists ev e,
         call_of ev = c
         /\ sigterm_handled sig (trace w ++ [ev]) = true
         /\ fst (run_main_thread env sig (invoke c) w)
            = fst (run env (sigterm_callback 15 tt) (log ev w))
         /\ snd (run env (sigterm_callback 15 tt) (log ev w)) = Raise e
         /\ snd (run_main_thread env sig (invoke c) w) = Raise e).
Proof.
  cbn [run_main_thread invoke]. unfold exec.
  destruct (env (trace w) c) as [a|e0]; cbn [log trace].
  - destruct (sigterm_handled sig (trace w ++ [Returned c a])) eqn:Hd.
    + right. right.
      destruct (clean_exit_raises env (log (Returned c a) w)) as [e He].
      exists (Returned c a), e.
      change (run env (sigterm_callback 15 tt) (log (Returned c a) w))
        with (run env clean_exit (log (Returned c a) w)).
      destruct (run env clean_exit (log (Returned c a) w)) as [w2 r].
      cbn [snd] in He. subst r. repeat split; assumption.
    + left. exists a. reflexivity.
  - destruct (sigterm_handled sig (trace w ++ [Raised c e0])) eqn:Hd.
    + right. right.
      destruct (clean_exit_raises env (log (Raised c e0) w)) as [e He].
      exists (Raised c e0), e.
      change (run env (sigterm_callback 15 tt) (log (Raised c e0) w))
        with (run env clean_exit (log (Raised c e0) w)).
      destruct (run env clean_exit (log (Raised c e0) w)) as [w2 r].
      cbn [snd] in He. subst r. repeat split; assumption.
    + right. left. exists e0. reflexivity.
Qed.

(** ** The foreground loop on the main thread *)

Lemma never_returns_raises (env : environment) (sig : signals) {A : Type}
      (p : prog A) (w : world) :
  never_returns p -> exists e, snd (run_main_thread env sig p w) = Raise e.
Proof.
  intros Hp. revert w.
  induction Hp as [e|c k _ IH|k _ IH|k _ IH|t k _ IH]; intros w;
    cbn [run_main_thread].
  - exists e. reflexivity.
  - destruct (exec env c w) as [w1 r].
    destruct (sigterm_handled sig (trace w1)).
    + destruct (run env (sigterm_callback 15 tt) w1) as [w2 [u|e]]; apply IH.
    + apply IH.
  - apply IH.
  - apply IH.
  - apply IH.
Qed.

Lemma clean_exit_never_returns : never_returns clean_exit.
Proof.
  unfold clean_exit. cbn.
  repeat (apply nr_Call; intros [?|?]; cbn; try apply nr_Throw).
Qed.

(** One turn of the loop on the main thread: the three calls returned;
    or the call at position [k] raised; or a [SIGTERM] was handled after
    the call at position [k], and the handler raised. *)
Lemma loop_body_on_main_thread (env : environment) (sig : signals) (w : world) :
  run_main_thread env sig loop_body w = (extend w iteration_events, Ok tt)
  \/ (exists k e,
         (k < 3)%nat
         /\ run_main_thread env sig loop_body w
            = (extend w (aborted_at iteration_events k e), Raise e))
  \/ (exists k ev e,
         (k < 3)%nat
         /\ nth_error (map call_of iteration_events) k = Some (call_of ev)
         /\ sigterm_handled sig (trace w ++ firstn k iteration_events ++ [ev]) = true
         /\ fst (run_main_thread env sig loop_body w)
            = fst (run env (sigterm_callback 15 tt)
                       (extend w (firstn k iteration_events ++ [ev])))
         /\ snd (run env (sigterm_callback 15 tt)
                     (extend w (firstn k iteration_events ++ [ev]))) = Raise e
         /\ snd (run_main_thread env sig loop_body w) = Raise e).
Proof.
  unfold loop_body.
  cbn [bind Monad_prog].
  change (prog_bind (invoke check_radio_info)
            (fun _ => prog_bind (invoke update_player) (fun _ => invoke (time_sleep tick))))
    with (bind (invoke check_radio_info)
            (fun _ : unit => bind (invoke update_player)
                               (fun _ : unit => invoke (time_sleep tick)))).
  rewrite run_main_thread_bind.
  destruct (run_main_thread_invoke env sig check_radio_info w)
    as [([] & H) | [(e & H) | (ev & e & Hc & Hd & Hfst & Hh & Hsnd)]].
  - cbn [answer] in H |- *. rewrite H. rewrite run_main_thread_bind.
    destruct (run_main_thread_invoke env sig update_player
                (log (Returned check_radio_info tt) w))
      as [([] & H') | [(e & H') | (ev & e & Hc & Hd & Hfst & Hh & Hsnd)]].
    + cbn [answer] in H' |- *. rewrite H'.
      destruct (run_main_thread_invoke env sig (time_sleep tick)
                  (log (Returned update_player tt)
                       (log (Returned check_radio_info tt) w)))
        as [([] & H'') | [(e & H'') | (ev & e & Hc & Hd & Hfst & Hh & Hsnd)]].
      * left. cbn [answer] in H'' |- *. rewrite H''. normalise_world. reflexivity.
      * right. left. exists 2%nat, e. split; [lia|].
        cbn [answer] in H'' |- *. rewrite H''. normalise_world. reflexivity.
      * right. right. exists 2%nat, ev, e.
        revert Hd Hfst Hh Hsnd. cbn [log trace]. normalise_world.
        rewrite <- !app_assoc. cbn [app firstn iteration_events].
        intros Hd Hfst Hh Hsnd.
        split; [lia|]. split; [cbn; now rewrite Hc|].
        repeat split; assumption.
    + right. left. exists 1%nat, e. split; [lia|].
      cbn [answer] in H' |- *. rewrite H'. normalise_world. reflexivity.
    + right. right. exists 1%nat, ev, e. cbn [answer] in *.
      destruct (@run_main_thread env sig unit (invoke update_player)
                  (log (Returned check_radio_info tt) w)) as [w' r].
      cbn [fst snd] in Hfst, Hsnd. subst r.
      revert Hd Hfst Hh. cbn [log trace fst snd]. normalise_world.
      rewrite <- !app_assoc. cbn [app firstn iteration_events].
      intros Hd Hfst Hh.
      split; [lia|]. split; [cbn; now rewrite Hc|].
      repeat split; assumption.
  - right. left. exists 0%nat, e. split; [lia|].
    cbn [answer] in H |- *. rewrite H. normalise_world. reflexivity.
  - right. right. exists 0%nat, ev, e. cbn [answer] in *.
    destruct (@run_main_thread env sig unit (invoke check_radio_info) w) as [w' r].
    cbn [fst snd] in Hfst, Hsnd. subst r.
    revert Hd Hfst Hh. cbn [log trace fst snd]. normalise_world.
    cbn [app firstn iteration_events].
    intros Hd Hfst Hh.
    split; [lia|]. split; [cbn; now rewrite Hc|].
    repeat split; assumption.
Qed.

(** [fuel] turns of the loop on the main thread: all of them ran; or a
    call raised in turn [n + 1]; or a [SIGTERM] was handled in turn
    [n + 1], after its call at position [k]. *)
Lemma while_True_on_main_thread (env : environment) (sig : signals)
      (fuel : nat) (w : world) :
  run_main_thread env sig (while_True fuel loop_body) w
  = (extend w (iterations fuel), Ok out_of_fuel)
  \/ (exists n k e,
         (n < fuel)%nat /\ (k < 3)%nat
         /\ run_main_thread env sig (while_True fuel loop_body) w
            = (extend w (iterations n ++ aborted_at iteration_events k e), Raise e))
  \/ (exists n k ev e,
         (n < fuel)%nat /\ (k < 3)%nat
         /\ nth_error (map call_of iteration_events) k = Some (call_of ev)
         /\ sigterm_handled sig
              (trace w ++ iterations n ++ firstn k iteration_events ++ [ev]) = true
         /\ fst (run_main_thread env sig (while_True fuel loop_body) w)
            = fst (run env (sigterm_callback 15 tt)
                       (extend w (iterations n ++ firstn k iteration_events ++ [ev])))
         /\ snd (run env (sigterm_callback 15 tt)
                     (extend w (iterations n ++ firstn k iteration_events ++ [ev])))
            = Raise e
         /\ snd (run_main_thread env sig (while_True fuel loop_body) w) = Raise e).
Proof.
  revert w. induction fuel as [|fuel IH]; intros w.
  - left. cbn. now rewrite extend_nil.
  - cbn [while_True]. rewrite run_main_thread_bind.
    destruct (loop_body_on_main_thread env sig w)
      as [H | [(k & e & Hk & H) | (k & ev & e & Hk & Hnth & Hd & Hfst & Hh & Hsnd)]].
    + rewrite H.
      destruct (IH (extend w iteration_events))
        as [H' | [(n & k & e & Hn & Hk & H')
                 | (n & k & ev & e & Hn & Hk & Hnth & Hd & Hfst & Hh & Hsnd)]].
      * left. rewrite H', extend_extend. reflexivity.
      * right. left. exists (S n), k, e. rewrite H', extend_extend.
        repeat split; lia.
      * right. right. exists (S n), k, ev, e.
        revert Hd Hfst Hh. rewrite extend_extend. cbn [extend trace iterations].
        rewrite <- !app_assoc. intros Hd Hfst Hh.
        split; [lia|]. repeat split; assumption.
    + right. left. exists 0%nat, k, e. rewrite H. repeat split; lia.
    + right. right. exists 0%nat, k, ev, e. cbn [iterations app].
      destruct (run_main_thread env sig loop_body w) as [w' r].
      cbn [fst snd] in Hfst, Hsnd |- *. subst r.
      split; [lia|]. repeat split; assumption.
Qed.

(** C7.  How the foreground loop of [main] ends on the main thread,
    [SIGTERM] arriving when it will.  Each turn calls
    [check_radio_info()], then [update_player()], then
    [time.sleep(0.05)].  Control never reaches the end of the [try]
    statement.  For every number [fuel] of turns, one of four things
    happens.  The [fuel] turns were made and the loop is still going.  Or
    a call of turn [n + 1] raised an exception other than
    [KeyboardInterrupt]: it leaves the statement as it is, and the
    shutdown sequence does not run.  Or a call raised
    [KeyboardInterrupt]: the [except] clause runs [clean_exit], and what
    that raises leaves the statement.  Or a [SIGTERM] was handled after a
    call of turn [n + 1]: [sigterm_callback] runs [clean_exit], and what
    that raises, [SystemExit(0)] when the sequence completes, leaves the
    statement; when it is a [KeyboardInterrupt], the [except] clause runs
    [clean_exit] again. *)
Theorem foreground_loop_left_by_exception
        (env : environment) (sig : signals) (fuel : nat) (w : world) :
  snd (run_main_thread env sig (foreground_loop fuel) w) <> Ok fell_through
  /\ (run_main_thread env sig (foreground_loop fuel) w
      = (extend w (iterations fuel), Ok out_of_fuel)
      \/ (exists n k e,
             (n < fuel)%nat /\ (k < 3)%nat
             /\ is_KeyboardInterrupt e = false
             /\ run_main_thread env sig (foreground_loop fuel) w
                = (extend w (iterations n ++ aborted_at iteration_events k e),
                   Raise e))
      \/ (exists n k e,
             (n < fuel)%nat /\ (k < 3)%nat
             /\ fst (run_main_thread env sig (foreground_loop fuel) w)
                = fst (run_main_thread env sig clean_exit
                         (extend w (iterations n
                                    ++ aborted_at iteration_events k KeyboardInterrupt)))
             /\ snd (run_main_thread env sig clean_exit
                       (extend w (iterations n
                                  ++ aborted_at iteration_events k KeyboardInterrupt)))
                = Raise e
             /\ snd (run_main_thread env sig (foreground_loop fuel) w) = Raise e)
      \/ (exists n k ev e0,
             (n < fuel)%nat /\ (k < 3)%nat
             /\ nth_error (map call_of iteration_events) k = Some (call_of ev)
             /\ sigterm_handled sig
                  (trace w ++ iterations n ++ firstn k iteration_events ++ [ev]) = true
             /\ snd (run env (sigterm_callback 15 tt)
                         (extend w (iterations n ++ firstn k iteration_events ++ [ev])))
                = Raise e0
             /\ (is_KeyboardInterrupt e0 = false ->
                 run_main_thread env sig (foreground_loop fuel) w
                 = (fst (run env (sigterm_callback 15 tt)
                             (extend w (iterations n
                                        ++ firstn k iteration_events ++ [ev]))),
                    Raise e0))
             /\ (is_KeyboardInterrupt e0 = true ->
                 exists e,
                   fst (run_main_thread env sig (foreground_loop fuel) w)
                   = fst (run_main_thread env sig clean_exit
                            (fst (run env (sigterm_callback 15 tt)
                                      (extend w (iterations n
                                                 ++ firstn k iteration_events
                                                 ++ [ev])))))
                   /\ snd (run_main_thread env sig clean_exit
                             (fst (run env (sigterm_callback 15 tt)
                                       (extend w (iterations n
                                                  ++ firstn k iteration_events
                                                  ++ [ev])))))
                      = Raise e
                   /\ snd (run_main_thread env sig (foreground_loop fuel) w)
                      = Raise e))).
Proof.
  unfold foreground_loop, try_except_KeyboardInterrupt.
  rewrite run_main_thread_catch.
  assert (Hexcept : forall w1,
             exists e,
               snd (run_main_thread env sig clean_exit w1) = Raise e
               /\ run_main_thread env sig (clean_exit ;; ret fell_through) w1
                  = (fst (run_main_thread env sig clean_exit w1), Raise e)).
  { intros w1. rewrite run_main_thread_bind.
    destruct (never_returns_raises env sig w1 clean_exit_never_returns) as [e He].
    destruct (run_main_thread env sig clean_exit w1) as [w' r]. cbn [fst snd] in *.
    subst r. exists e. split; reflexivity. }
  destruct (while_True_on_main_thread env sig fuel w)
    as [H | [(n & k & e0 & Hn & Hk & H)
            | (n & k & ev & e0 & Hn & Hk & Hnth & Hd & Hfst & Hh & Hsnd)]].
  - rewrite H. cbn [fst snd]. split; [discriminate|]. left. reflexivity.
  - rewrite H. destruct e0 as [code| |msg].
    + cbn [run_main_thread raise MonadExc_prog snd]. split; [discriminate|].
      right. left. exists n, k, (SystemExit code). repeat split; assumption.
    + destruct (Hexcept (extend w (iterations n
                                   ++ aborted_at iteration_events k KeyboardInterrupt)))
        as (e & He & Hrun).
      rewrite Hrun. cbn [fst snd]. split; [discriminate|].
      right. right. left. exists n, k, e. repeat split; assumption.
    + cbn [run_main_thread raise MonadExc_prog snd]. split; [discriminate|].
      right. left. exists n, k, (Exception msg). repeat split; assumption.
  - destruct (run_main_thread env sig (while_True fuel loop_body) w) as [w' r].
    cbn [fst snd] in Hfst, Hsnd. subst r w'.
    destruct e0 as [code| |msg].
    + cbn [run_main_thread raise MonadExc_prog snd]. split; [discriminate|].
      right. right. right. exists n, k, ev, (SystemExit code).
      split; [exact Hn|]. split; [exact Hk|]. split; [exact Hnth|].
      split; [exact Hd|]. split; [exact Hh|].
      split; [intros _; reflexivity | discriminate].
    + destruct (Hexcept (fst (run env (sigterm_callback 15 tt)
                                  (extend w (iterations n
                                             ++ firstn k iteration_events ++ [ev])))))
        as (e & He & Hrun).
      rewrite Hrun. cbn [fst snd]. split; [discriminate|].
      right. right. right. exists n, k, ev, KeyboardInterrupt.
      split; [exact Hn|]. split; [exact Hk|]. split; [exact Hnth|].
      split; [exact Hd|]. split; [exact Hh|].
      split; [discriminate|]. intros _.
      exists e. split; [reflexivity|]. split; [exact He | reflexivity].
    + cbn [run_main_thread raise MonadExc_prog snd]. split; [discriminate|].
      right. right. right. exists n, k, ev, (Exception msg).
      split; [exact Hn|]. split; [exact Hk|]. split; [exact Hnth|].
      split; [exact Hd|]. split; [exact Hh|].
      split; [intros _; reflexivity | discriminate].
Qed.

(** ** Exit status 0, with [SIGTERM] *)

Lemma new_events_later (w w1 w2 : world) (pre : list event) :
  trace w1 = trace w ++ pre ->
  (exists evs, trace w2 = trace w1 ++ evs) ->
  new_events w w2 = pre ++ new_events w1 w2.
Proof.
  intros H1 [evs H2].
  rewrite (@new_events_app w1 w2 evs H2). apply new_events_app.
  rewrite H2, H1. now rewrite <- app_assoc.
Qed.

Lemma exit_lifted (P : call -> bool) (pre rest : list event) (saved b : bool) :
  (b = true ->
   done P pre = true \/ existsb is_SystemExit (raised_by any_call pre) = true) ->
  (saved || b = true
   \/ done P rest = true
   \/ existsb is_SystemExit (raised_by any_call rest) = true) ->
  saved = true
  \/ done P (pre ++ rest) = true
  \/ existsb is_SystemExit (raised_by any_call (pre ++ rest)) = true.
Proof.
  intros Hb H. rewrite done_app, exists_raised_app.
  destruct saved; [left; reflexivity|]. right.
  destruct H as [H | [H | H]].
  - cbn in H. destruct (Hb H) as [H' | H']; rewrite H'; [left | right]; reflexivity.
  - left. rewrite H. apply orb_true_r.
  - right. rewrite H. apply orb_true_r.
Qed.

Section ExitGuarded.
Variable P : call -> bool.

Lemma exit_guarded_weaken {A : Type} (p : prog A) (saved saved' : bool) :
  exit_guarded P saved p -> (saved = true -> saved' = true) ->
  exit_guarded P saved' p.
Proof.
  intros Hg. revert saved'.
  induction Hg as [saved a|saved e He|saved c k _ IHa _ IHe
                   |saved k _ IH|saved k _ IH|saved t k _ IH];
    intros saved' Hs.
  - apply eg_Ret.
  - apply eg_Throw. intros H. apply Hs, He, H.
  - apply eg_Call.
    + intros a. apply IHa. intros H. apply orb_true_iff in H. apply orb_true_iff.
      destruct H as [H | H]; [left; apply Hs, H | right; exact H].
    + intros e. apply IHe. intros H. apply orb_true_iff in H. apply orb_true_iff.
      destruct H as [H | H]; [left; apply Hs, H | right; exact H].
  - apply eg_TimeTime. intros t. now apply IH.
  - apply eg_GetIpTimer. intros t. now apply IH.
  - apply eg_SetIpTimer. now apply IH.
Qed.

Lemma exit_guarded_from_false {A : Type} (p : prog A) (saved : bool) :
  exit_guarded P false p -> exit_guarded P saved p.
Proof. intros Hg. apply (exit_guarded_weaken Hg). discriminate. Qed.

Lemma exit_guarded_bind {A B : Type} (p : prog A) (f : A -> prog B) (saved : bool) :
  exit_guarded P saved p -> (forall a, exit_guarded P false (f a)) ->
  exit_guarded P saved (bind p f).
Proof.
  intros Hg Hf.
  induction Hg as [saved a|saved e He|saved c k _ IHa _ IHe
                   |saved k _ IH|saved k _ IH|saved t k _ IH];
    cbn [bind Monad_prog prog_bind].
  - apply exit_guarded_from_false, Hf.
  - apply eg_Throw, He.
  - apply eg_Call; [exact IHa | exact IHe].
  - apply eg_TimeTime, IH.
  - apply eg_GetIpTimer, IH.
  - apply eg_SetIpTimer, IH.
Qed.

Lemma exit_guarded_catch {A : Type} (p : prog A) (h : exn -> prog A) (saved : bool) :
  exit_guarded P saved p ->
  (forall e saved', (e = SystemExit 0 -> saved' = true) -> exit_guarded P saved' (h e)) ->
  exit_guarded P saved (catch p h).
Proof.
  intros Hg Hh.
  induction Hg as [saved a|saved e He|saved c k _ IHa _ IHe
                   |saved k _ IH|saved k _ IH|saved t k _ IH];
    cbn [catch MonadExc_prog prog_catch].
  - apply eg_Ret.
  - apply Hh, He.
  - apply eg_Call; [exact IHa | exact IHe].
  - apply eg_TimeTime, IH.
  - apply eg_GetIpTimer, IH.
  - apply eg_SetIpTimer, IH.
Qed.

Lemma exit_guarded_invoke (c : call) (saved : bool) :
  exit_guarded P saved (invoke c).
Proof.
  apply eg_Call.
  - intros a. apply eg_Ret.
  - intros e. apply eg_Throw. intros ->. apply orb_true_r.
Qed.

(** The shutdown sequence makes a call satisfying [P]. *)
Hypothesis P_in_shutdown :
  forall vol indice, done P (shutdown_events vol indice) = true.

Lemma sigterm_callback_outcome (env : environment) (w : world) :
  exists hevs e,
    run env (sigterm_callback 15 tt) w = (extend w hevs, Raise e)
    /\ (is_SystemExit e = true ->
        done P hevs = true
        \/ existsb is_SystemExit (raised_by any_call hevs) = true).
Proof.
  change (sigterm_callback 15 tt) with clean_exit.
  destruct (clean_exit_cases env w) as (vol & indice & [H | (n & e & Hn & H)]).
  - exists (shutdown_events vol indice), (SystemExit 0). split; [exact H|].
    intros _. left. apply P_in_shutdown.
  - exists (aborted_at (shutdown_events vol indice) n e), e. split; [exact H|].
    intros He. right. clear H.
    each_position n; cbn; rewrite He; reflexivity.
Qed.

(** A guarded program that ends with [SystemExit(0)] on the main thread
    has made a call satisfying [P] that returned, unless a call raised a
    [SystemExit] of its own. *)
Lemma exit_guarded_sound (env : environment) (sig : signals) {A : Type}
      (p : prog A) (saved : bool) (w : world) :
  exit_guarded P saved p ->
  snd (run_main_thread env sig p w) = Raise (SystemExit 0) ->
  saved = true
  \/ done P (new_events w (fst (run_main_thread env sig p w))) = true
  \/ existsb is_SystemExit
       (raised_by any_call (new_events w (fst (run_main_thread env sig p w)))) = true.
Proof.
  intros Hg. revert w.
  induction Hg as [saved a|saved e He|saved c k _ IHa _ IHe
                   |saved k _ IH|saved k _ IH|saved t k _ IH];
    intros w; cbn [run_main_thread fst snd].
  - discriminate.
  - intros H. left. apply He. now injection H.
  - unfold exec. destruct (env (trace w) c) as [a|e0].
    + destruct (sigterm_handled sig (trace (log (Returned c a) w))).
      * destruct (sigterm_callback_outcome env (log (Returned c a) w))
          as (hevs & e & Hrun & Hse).
        rewrite Hrun. intros Hexit.
        rewrite (@new_events_later w (extend (log (Returned c a) w) hevs) _
                   (Returned c a :: hevs)).
        -- apply (@exit_lifted P _ _ saved (is_SystemExit e)).
           ++ intros Hb. destruct (Hse Hb) as [H | H]; [left | right].
              ** change (Returned c a :: hevs) with ([Returned c a] ++ hevs).
                 rewrite done_app, H. apply orb_true_r.
              ** exact H.
           ++ apply IHe, Hexit.
        -- cbn. now rewrite <- app_assoc.
        -- apply run_main_thread_extends.
      * intros Hexit.
        rewrite (@new_events_later w (log (Returned c a) w) _ [Returned c a]).
        -- apply (@exit_lifted P _ _ saved (P c)).
           ++ intros Hb. left. cbn. now rewrite Hb.
           ++ apply IHa, Hexit.
        -- reflexivity.
        -- apply run_main_thread_extends.
    + destruct (sigterm_handled sig (trace (log (Raised c e0) w))).
      * destruct (sigterm_callback_outcome env (log (Raised c e0) w))
          as (hevs & e & Hrun & Hse).
        rewrite Hrun. intros Hexit.
        rewrite (@new_events_later w (extend (log (Raised c e0) w) hevs) _
                   (Raised c e0 :: hevs)).
        -- apply (@exit_lifted P _ _ saved (is_SystemExit e)).
           ++ intros Hb. destruct (Hse Hb) as [H | H]; [left | right].
              ** exact H.
              ** change (Raised c e0 :: hevs) with ([Raised c e0] ++ hevs).
                 rewrite exists_raised_app, H. apply orb_true_r.
           ++ apply IHe, Hexit.
        -- cbn. now rewrite <- app_assoc.
        -- apply run_main_thread_extends.
      * intros Hexit.
        rewrite (@new_events_later w (log (Raised c e0) w) _ [Raised c e0]).
        -- apply (@exit_lifted P _ _ saved (is_SystemExit e0)).
           ++ intros Hb. right. cbn. now rewrite Hb.
           ++ apply IHe, Hexit.
        -- reflexivity.
        -- apply run_main_thread_extends.
  - apply IH.
  - apply IH.
  - intros Hexit. apply (IH (store_ip_timer t w) Hexit).
Qed.

End ExitGuarded.

(** Splits a straight-line program into its calls. *)
Ltac guarded_by_structure :=
  repeat first
    [ apply exit_guarded_invoke
    | apply eg_Ret
    | apply exit_guarded_bind; [ | intros ? ] ].

Section ScriptGuarded.
Variable P : call -> bool.
Hypothesis clean_exit_guarded : exit_guarded P false clean_exit.

Lemma loop_body_guarded : exit_guarded P false loop_body.
Proof. unfold loop_body. guarded_by_structure. Qed.

Lemma while_True_guarded (fuel : nat) :
  exit_guarded P false (while_True fuel loop_body).
Proof.
  induction fuel as [|fuel IH]; cbn [while_True].
  - apply eg_Ret.
  - apply exit_guarded_bind; [apply loop_body_guarded | intros _; exact IH].
Qed.

Lemma foreground_loop_guarded (fuel : nat) :
  exit_guarded P false (foreground_loop fuel).
Proof.
  unfold foreground_loop, try_except_KeyboardInterrupt.
  apply exit_guarded_catch; [apply while_True_guarded|].
  intros [code| |msg] saved' Hs.
  - apply eg_Throw, Hs.
  - apply exit_guarded_from_false.
    apply exit_guarded_bind; [exact clean_exit_guarded | intros _; apply eg_Ret].
  - apply eg_Throw. discriminate.
Qed.

Lemma init_radiobot_guarded (config_file : string) :
  exit_guarded P false (init_radiobot config_file).
Proof.
  unfold init_radiobot, configure_GPIO, set_as_ready, try_except_Exception.
  guarded_by_structure.
  apply exit_guarded_catch; [guarded_by_structure|].
  intros [code| |msg] saved' Hs.
  - apply eg_Throw, Hs.
  - apply eg_Throw. discriminate.
  - guarded_by_structure. apply eg_Throw. discriminate.
Qed.

Lemma script_guarded (argv : list string) (fuel : nat) :
  exit_guarded P false (script argv fuel).
Proof.
  destruct argv as [|a0 [|config_file rest]]; cbn [script]; unfold main.
  - guarded_by_structure. apply eg_Throw. discriminate.
  - guarded_by_structure. apply eg_Throw. discriminate.
  - do 4 (apply exit_guarded_bind; [apply exit_guarded_invoke | intros _]).
    apply exit_guarded_bind;
      [apply init_radiobot_guarded | intros _; apply foreground_loop_guarded].
Qed.

End ScriptGuarded.

Ltac guarded_by_running :=
  repeat (cbn;
          first [ apply eg_Ret
                | apply eg_Throw; first [discriminate | intros _; reflexivity]
                | apply eg_Call; [intros ? | intros [?| |?] ] ]).

Lemma clean_exit_saves_first : exit_guarded is_save_settings false clean_exit.
Proof. unfold clean_exit. guarded_by_running. Qed.

Lemma clean_exit_cleans_first : exit_guarded is_GPIO_cleanup false clean_exit.
Proof. unfold clean_exit. guarded_by_running. Qed.

(** X3.  Exit status 0 means that the shutdown sequence got through,
    whenever [SIGTERM] arrives: when the script ends with
    [SystemExit(0)] and no call raised a [SystemExit] of its own,
    [GPIO.cleanup()] and [save_settings] have returned. *)
Theorem exit_status_0_after_shutdown
        (env : environment) (sig : signals) (argv : list string) (fuel : nat)
        (w : world)
        (Hexit : snd (run_main_thread env sig (script argv fuel) w)
                 = Raise (SystemExit 0))
        (Hown : existsb is_SystemExit
                  (raised_by any_call
                     (new_events w (fst (run_main_thread env sig (script argv fuel) w))))
                = false) :
  done is_GPIO_cleanup
    (new_events w (fst (run_main_thread env sig (script argv fuel) w))) = true
  /\ done is_save_settings
       (new_events w (fst (run_main_thread env sig (script argv fuel) w))) = true.
Proof.
  split.
  - destruct (@exit_guarded_sound is_GPIO_cleanup (fun _ _ => eq_refl) env sig _
                (script argv fuel) false w
                (script_guarded clean_exit_cleans_first argv fuel) Hexit)
      as [H | [H | H]]; [discriminate | exact H | ].
    rewrite Hown in H. discriminate.
  - destruct (@exit_guarded_sound is_save_settings (fun _ _ => eq_refl) env sig _
                (script argv fuel) false w
                (script_guarded clean_exit_saves_first argv fuel) Hexit)
      as [H | [H | H]]; [discriminate | exact H | ].
    rewrite Hown in H. discriminate.
Qed.

(** X4.  The main thread saves the settings only after the first radio
    was started and a call of the loop raised [KeyboardInterrupt], or
    after it handled a [SIGTERM].  A startup that fails with no
    [SIGTERM] never overwrites the saved settings. *)
Theorem settings_saved_after_start_or_sigterm
        (env : environment) (sig : signals) (argv : list string) (fuel : nat)
        (w : world)
        (Hsave : attempted is_save_settings
                   (new_events w (fst (run_main_thread env sig (script argv fuel) w)))
                 = true) :
  (done is_play_radio
     (new_events w (fst (run_main_thread env sig (script argv fuel) w))) = true
   /\ existsb is_KeyboardInterrupt
        (raised_by is_loop_call
           (new_events w (fst (run_main_thread env sig (script argv fuel) w))))
      = true)
  \/ delivered sig (trace w)
       (new_events w (fst (run_main_thread env sig (script argv fuel) w))).
Proof.
  destruct (run_main_thread_or_run env sig (script argv fuel) w) as [H | H].
  - left. rewrite H in Hsave |- *.
    now apply undisturbed_run_saves_after_start.
  - right. exact H.
Qed.

(** ** Runs of the main thread *)

(** C7 as stated fails: the player crashes in the eleventh turn of the
    loop, no [SIGTERM] arriving.  The exception leaves the loop, and no
    call of the shutdown sequence is made. *)
Lemma player_error_leaves_loop_without_shutdown :
  run_main_thread player_crashed no_sigterm (foreground_loop 20) w0
  = (extend w0 (iterations 10 ++ aborted_at iteration_events 1 (Exception "vlc")),
     Raise (Exception "vlc"))
  /\ attempted is_GPIO_cleanup
       (new_events w0
          (fst (run_main_thread player_crashed no_sigterm (foreground_loop 20) w0)))
     = false
  /\ attempted is_save_settings
       (new_events w0
          (fst (run_main_thread player_crashed no_sigterm (foreground_loop 20) w0)))
     = false
  /\ attempted is_print
       (new_events w0
          (fst (run_main_thread player_crashed no_sigterm (foreground_loop 20) w0)))
     = false.
Proof. repeat split; reflexivity. Qed.

(** [SIGTERM] during the first [time.sleep] of the loop: the script
    exits with status 0, the settings saved, and no call has raised
    [KeyboardInterrupt]. *)
Example sigterm_in_the_loop :
  snd (run_main_thread calm (sigterm_at 30) (script command_line 3) w0)
  = Raise (SystemExit 0)
  /\ new_events w0
       (fst (run_main_thread calm (sigterm_at 30) (script command_line 3) w0))
     = prologue_events ++ startup_events "radiobot.json" default_config
       ++ iteration_events ++ shutdown_events 50 0
  /\ raised_by any_call
       (new_events w0
          (fst (run_main_thread calm (sigterm_at 30) (script command_line 3) w0)))
     = [].
Proof. repeat split; reflexivity. Qed.

(** [SIGTERM] during the [time.sleep(0.5)] of [set_as_ready]: the
    settings are saved although the first radio was never started. *)
Example sigterm_before_first_radio :
  snd (run_main_thread calm (sigterm_at 24) (script command_line 3) w0)
  = Raise (SystemExit 0)
  /\ done is_save_settings
       (new_events w0
          (fst (run_main_thread calm (sigterm_at 24) (script command_line 3) w0)))
     = true
  /\ attempted is_play_radio
       (new_events w0
          (fst (run_main_thread calm (sigterm_at 24) (script command_line 3) w0)))
     = false.
Proof. repeat split; reflexivity. Qed.

Lemma exit_status_0_after_shutdown_witness :
  snd (run_main_thread calm (sigterm_at 30) (script command_line 3) w0)
  = Raise (SystemExit 0)
  /\ done is_GPIO_cleanup
       (new_events w0
          (fst (run_main_thread calm (sigterm_at 30) (script command_line 3) w0)))
     = true
  /\ done is_save_settings
       (new_events w0
          (fst (run_main_thread calm (sigterm_at 30) (script command_line 3) w0)))
     = true.
Proof.
  split; [reflexivity|].
  apply (@exit_status_0_after_shutdown calm (sigterm_at 30) command_line 3%nat w0);
    reflexivity.
Defined.

Lemma settings_saved_after_start_or_sigterm_witness :
  attempted is_save_settings
    (new_events w0
       (fst (run_main_thread calm (sigterm_at 24) (script command_line 3) w0)))
  = true
  /\ ((done is_play_radio
         (new_events w0
            (fst (run_main_thread calm (sigterm_at 24) (script command_line 3) w0)))
       = true
       /\ existsb is_KeyboardInterrupt
            (raised_by is_loop_call
               (new_events w0
                  (fst (run_main_thread calm (sigterm_at 24)
                          (script command_line 3) w0))))
          = true)
      \/ delivered (sigterm_at 24) (trace w0)
           (new_events w0
              (fst (run_main_thread calm (sigterm_at 24)
                      (script command_line 3) w0)))).
Proof.
  split; [reflexivity|].
  apply (@settings_saved_after_start_or_sigterm calm (sigterm_at 24) command_line
           3%nat w0).
  reflexivity.
Defined.
